(** * Blockchain Notes DApp: session, save and list logic

    A shallow embedding of the orchestration code of the React front end
    (ConnectWallet.jsx, NoteEditor.jsx, NotesList.jsx and App.js) together
    with the properties the specification states about it.

    Modelling conventions.
    - A JavaScript string is a [string]; the characters that matter to the
      code (hexadecimal addresses, the fixed message patterns, white space)
      are in the 8-bit range.
    - A JavaScript number holding an integer is a [Z] (or an [N] for a clock
      value); every number the code handles here is an id, a timestamp or a
      receipt status, well inside the range where JavaScript numbers are
      exact.
    - [await e] is a point where the environment (wallet, node, contract)
      answers.  The answers are collected in a record of the component's
      module, one field per awaited call, each an [Outcome]: the promise
      resolves with a value or rejects with an error object.
    - A handler is a computation in the monad [M]: it emits, in program
      order, the state setters it calls and the requests it sends, and ends
      with a value or a thrown error.  The state of a component after a
      handler is the replay of the emitted setters. *)

From Stdlib Require Import Bool Arith ZArith NArith List Lia.
From Stdlib Require Import Ascii String DecimalString.
From Stdlib Require Import Sorted Permutation.
Import ListNotations.

Open Scope string_scope.
Open Scope list_scope.

(* ------------------------------------------------------------------ *)
(** ** JavaScript values and built-ins used by the code *)

Module Js.

(** [x || ''], [!s], [if (s)]: a string is truthy when it is not empty. *)
Definition truthy (s : string) : bool :=
  match s with EmptyString => false | String _ _ => true end.

(** The lower-case form of a character of the 8-bit range: A to Z, and
    the accented capitals 192 to 222 but for the sign 215. *)
Definition lower_ascii (c : ascii) : ascii :=
  let n := nat_of_ascii c in
  if (((65 <=? n) && (n <=? 90)) ||
      ((192 <=? n) && (n <=? 222) && negb (n =? 215)))%nat
  then ascii_of_nat (n + 32) else c.

(** [String.prototype.toLowerCase]. *)
Fixpoint toLowerCase (s : string) : string :=
  match s with
  | EmptyString => EmptyString
  | String c r => String (lower_ascii c) (toLowerCase r)
  end.

(** White space as [String.prototype.trim] sees it, in the 8-bit range:
    TAB, LF, VT, FF, CR, SPACE and NBSP. *)
Definition is_space (c : ascii) : bool :=
  let n := nat_of_ascii c in
  (((9 <=? n) && (n <=? 13)) || (n =? 32) || (n =? 160))%nat.

Fixpoint trimStart (s : string) : string :=
  match s with
  | EmptyString => EmptyString
  | String c r => if is_space c then trimStart r else s
  end.

(** Drops the white space at the end: a character is kept when it is not
    white space or when something is kept after it. *)
Fixpoint trimEnd (s : string) : string :=
  match s with
  | EmptyString => EmptyString
  | String c r =>
      match trimEnd r with
      | EmptyString => if is_space c then EmptyString else String c EmptyString
      | r' => String c r'
      end
  end.

(** [String.prototype.trim]. *)
Definition trim (s : string) : string := trimEnd (trimStart s).

(** [String.prototype.includes]: [pat] occurs somewhere in [s]. *)
Fixpoint includes (s pat : string) : bool :=
  prefix pat s ||
  match s with
  | EmptyString => false
  | String _ r => includes r pat
  end.

(** Every character of [s] is white space. *)
Fixpoint all_space (s : string) : bool :=
  match s with
  | EmptyString => true
  | String c r => is_space c && all_space r
  end.

(** The line feed of a [\n] in a string literal. *)
Definition LF : string := String (ascii_of_nat 10) EmptyString.

(** A number in a template literal: its decimal digits. *)
Definition show_N (n : N) : string := NilEmpty.string_of_uint (N.to_uint n).

(** An error object as the code inspects it: [err.code], [err.message],
    the nested [err.error.message] of a provider error, and the fields a
    failed transaction carries, [err.receipt] and [err.transaction.hash]. *)
Record Receipt := { status : Z; transactionHash : string }.

Record Error := {
  code : option Z;
  message : option string;
  error_message : option string;
  receipt : option Receipt;
  transaction_hash : option string
}.

(** [new Error(msg)]. *)
Definition new_Error (msg : string) : Error :=
  {| code := None; message := Some msg; error_message := None;
     receipt := None; transaction_hash := None |}.

(** [err.code === n]. *)
Definition code_is (err : Error) (n : Z) : bool :=
  match code err with
  | Some c => (c =? n)%Z
  | None => false
  end.

(** [x || ''] for a message that may be absent. *)
Definition or_empty (m : option string) : string :=
  match m with Some s => s | None => "" end.

(** [m && m.includes(pat)] used as a condition. *)
Definition message_includes (m : option string) (pat : string) : bool :=
  match m with Some s => truthy s && includes s pat | None => false end.

(** A settled promise. *)
Inductive Outcome (A : Type) : Type :=
| Resolved (a : A)
| Rejected (e : Error).
Arguments Resolved {A} a.
Arguments Rejected {A} e.

End Js.

Import Js.

(* ------------------------------------------------------------------ *)
(** ** Handlers as traced computations *)

Module Handler.
Section WithEvent.
Variable Event : Type.

(** The events emitted so far, and how the computation ended. *)
Definition M (A : Type) : Type := (list Event * Outcome A)%type.

Definition ret {A} (a : A) : M A := ([], Resolved a).

Definition bind {A B} (m : M A) (f : A -> M B) : M B :=
  match m with
  | (t, Resolved a) => let (t', r) := f a in (t ++ t', r)
  | (t, Rejected e) => (t, Rejected e)
  end.

Definition emit (ev : Event) : M unit := ([ev], Resolved tt).

Definition throw {A} (e : Error) : M A := ([], Rejected e).

(** A synchronous call that returns or throws, as [o] says. *)
Definition call {A} (o : Outcome A) : M A := ([], o).

(** [await p] where the environment settles [p] with [o]; the request
    itself is the event [ev]. *)
Definition await {A} (ev : Event) (o : Outcome A) : M A := ([ev], o).

(** [try { m } catch (e) { h e }]. *)
Definition try_catch {A} (m : M A) (h : Error -> M A) : M A :=
  match m with
  | (t, Rejected e) => let (t', r) := h e in (t ++ t', r)
  | (t, Resolved a) => (t, Resolved a)
  end.

(** [try { m } finally { f }]: [f] runs however [m] ended. *)
Definition finally {A} (m : M A) (f : M unit) : M A :=
  let (t, r) := m in
  let (t', r') := f in
  (t ++ t', match r' with Rejected e => Rejected e | Resolved _ => r end).

Definition trace {A} (m : M A) : list Event := fst m.
Definition result {A} (m : M A) : Outcome A := snd m.
End WithEvent.

Arguments ret {Event A} a.
Arguments bind {Event A B} m f.
Arguments emit {Event} ev.
Arguments throw {Event A} e.
Arguments call {Event A} o.
Arguments await {Event A} ev o.
Arguments try_catch {Event A} m h.
Arguments finally {Event A} m f.
Arguments trace {Event A} m.
Arguments result {Event A} m.
End Handler.

Import Handler.

Declare Scope handler_scope.
Delimit Scope handler_scope with handler.
Notation "x <- m ;; k" := (bind m (fun x => k))
  (at level 61, m at next level, right associativity) : handler_scope.
Notation "m ;;; k" := (bind m (fun _ => k))
  (at level 61, right associativity) : handler_scope.
Open Scope handler_scope.

(* ------------------------------------------------------------------ *)
(** ** ConnectWallet.jsx: the wallet session *)

Module ConnectWallet.

(** [new ethers.providers.Web3Provider(window.ethereum)], an opaque handle. *)
Inductive Provider := Web3Provider.

(** The [useState] cells of the component that the handlers write. *)
Record State := {
  account : string;
  isConnecting : bool;
  error : string;
  manuallyDisconnected : bool
}.

(** [useState('')], [useState(false)], [useState('')], [useState(false)]. *)
Definition initial : State :=
  {| account := ""; isConnecting := false; error := "";
     manuallyDisconnected := false |}.

(** What a handler does, in program order: the setters it calls, the
    requests it sends to the wallet and the calls of the [onConnected]
    prop. *)
Inductive Event :=
| SetAccount (a : string)
| SetIsConnecting (b : bool)
| SetError (e : string)
| SetManuallyDisconnected (b : bool)
| SwitchChain
| AddChain
| RequestAccounts
| SignMessage (msg : string)
| OnConnected (a : string) (p : option Provider).

(** The wallet and the clock as the handlers meet them: [window.ethereum]
    present or not, the answer to each request, the signature (or the
    rejection) for a message, [ethers.utils.verifyMessage] (which throws
    on a malformed signature) and [Date.now()]. *)
Record Wallet := {
  ethereum : bool;
  switchEthereumChain : Outcome unit;
  addEthereumChain : Outcome unit;
  requestAccounts : Outcome (list string);
  signMessage : string -> Outcome string;
  verifyMessage : string -> string -> Outcome string;
  now : N
}.

(** The props: whether an [onConnected] callback was passed. *)
Record Props := { onConnected : bool }.

Definition apply (st : State) (ev : Event) : State :=
  match ev with
  | SetAccount a =>
      {| account := a; isConnecting := isConnecting st; error := error st;
         manuallyDisconnected := manuallyDisconnected st |}
  | SetIsConnecting b =>
      {| account := account st; isConnecting := b; error := error st;
         manuallyDisconnected := manuallyDisconnected st |}
  | SetError e =>
      {| account := account st; isConnecting := isConnecting st; error := e;
         manuallyDisconnected := manuallyDisconnected st |}
  | SetManuallyDisconnected b =>
      {| account := account st; isConnecting := isConnecting st;
         error := error st; manuallyDisconnected := b |}
  | SwitchChain | AddChain | RequestAccounts | SignMessage _
  | OnConnected _ _ => st
  end.

(** The component state after the events of a handler. *)
Definition run (st : State) (tr : list Event) : State := fold_left apply tr st.

(** The states the component goes through, one per event. *)
Fixpoint states (st : State) (tr : list Event) : list State :=
  match tr with
  | [] => []
  | ev :: tr' => apply st ev :: states (apply st ev) tr'
  end.

(** The challenge of [requestSignature]: the candidate address and the
    current time. *)
Definition challenge (address : string) (t : N) : string :=
  "Blockchain Notes App Authentication" ++ LF ++
  "Address: " ++ address ++ LF ++
  "Timestamp: " ++ show_N t.

(** [if (onConnected) onConnected(a, p)]. *)
Definition callOnConnected (props : Props) (a : string) (p : option Provider)
  : M Event unit :=
  if onConnected props then emit (OnConnected a p) else ret tt.

(** [switchToFluentNetwork]. *)
Definition switchToFluentNetwork (w : Wallet) : M Event bool :=
  if negb (ethereum w) then ret false
  else
    try_catch
      (await SwitchChain (switchEthereumChain w) ;;; ret true)
      (fun switchError =>
         if code_is switchError 4902 then
           try_catch
             (await AddChain (addEthereumChain w) ;;; ret true)
             (fun addError =>
                emit (SetError "Failed to add Fluent network to wallet") ;;;
                ret false)
         else
           emit (SetError "Failed to switch to Fluent network") ;;;
           ret false).

(** [requestSignature(provider, address)]. *)
Definition requestSignature (w : Wallet) (address : string) : M Event bool :=
  try_catch
    (let message := challenge address (now w) in
     signature <- await (SignMessage message) (signMessage w message) ;;
     recoveredAddress <- call (verifyMessage w message signature) ;;
     if String.eqb (toLowerCase recoveredAddress) (toLowerCase address)
     then ret true
     else
       emit (SetError "Signature verification failed. Please try connecting again.") ;;;
       ret false)
    (fun err =>
       if code_is err 4001 then
         emit (SetError "You must sign the message to authenticate with the app.") ;;;
         ret false
       else
         emit (SetError ("Failed to verify wallet ownership: " ++
                         or_empty (Js.message err))) ;;;
         ret false).

(** [connectWallet].  The [return] inside the [try] still runs the
    [finally] block. *)
Definition connectWallet (props : Props) (w : Wallet) : M Event unit :=
  if negb (ethereum w) then
    emit (SetError "No Ethereum wallet detected. Please install MetaMask.")
  else
    emit (SetIsConnecting true) ;;;
    emit (SetError "") ;;;
    finally
      (try_catch
         (switched <- switchToFluentNetwork w ;;
          if negb switched then emit (SetIsConnecting false)
          else
            accounts <- await RequestAccounts (requestAccounts w) ;;
            match accounts with
            | address :: _ =>
                signatureVerified <- requestSignature w address ;;
                if signatureVerified then
                  emit (SetAccount address) ;;;
                  callOnConnected props address (Some Web3Provider)
                else emit (SetAccount "")
            | [] => ret tt
            end)
         (fun err =>
            emit (SetError ("Failed to connect wallet. " ++
                            or_empty (Js.message err)))))
      (emit (SetIsConnecting false)).

(** [handleAccountsChanged(accounts)], the closure built by the effect;
    [md] is the value of [manuallyDisconnected] the closure captured. *)
Definition handleAccountsChanged (props : Props) (w : Wallet) (md : bool)
    (accounts : list string) : M Event unit :=
  emit (SetAccount "") ;;;
  match accounts with
  | address :: _ =>
      if negb md then
        finally
          (try_catch
             (emit (SetIsConnecting true) ;;;
              emit (SetError "") ;;;
              signatureVerified <- requestSignature w address ;;
              if signatureVerified then
                emit (SetAccount address) ;;;
                callOnConnected props address (Some Web3Provider)
              else ret tt)
             (fun err => emit (SetError "Failed to verify new wallet account.")))
          (emit (SetIsConnecting false))
      else ret tt
  | [] => ret tt
  end.

(** The effect with dependencies [onConnected, manuallyDisconnected]:
    after a render with state [st] the listener for ['accountsChanged']
    is registered only if [window.ethereum && !manuallyDisconnected]; the
    clean-up of the previous effect removed the listener of the previous
    render. *)
Definition listener (props : Props) (w : Wallet) (st : State)
  : option (list string -> M Event unit) :=
  if ethereum w && negb (manuallyDisconnected st)
  then Some (handleAccountsChanged props w (manuallyDisconnected st))
  else None.

(** The wallet emits ['accountsChanged']: the registered listener, if any,
    runs. *)
Definition accountsChanged (props : Props) (w : Wallet) (st : State)
    (accounts : list string) : M Event unit :=
  match listener props w st with
  | Some handler => handler accounts
  | None => ret tt
  end.

(** [disconnectWallet]. *)
Definition disconnectWallet (props : Props) : M Event unit :=
  emit (SetAccount "") ;;;
  emit (SetManuallyDisconnected true) ;;;
  callOnConnected props "" None.

(** A Session is installed by the events that bind the component, or its
    parent through [onConnected], to a non-empty account. *)
Definition installed (ev : Event) : option string :=
  match ev with
  | SetAccount a | OnConnected a _ => if truthy a then Some a else None
  | _ => None
  end.

(** The accounts a trace installs a Session for, in order. *)
Fixpoint sessions (tr : list Event) : list string :=
  match tr with
  | [] => []
  | ev :: tr' =>
      match installed ev with
      | Some a => a :: sessions tr'
      | None => sessions tr'
      end
  end.

(** A request for a signature was sent. *)
Definition is_sign_request (ev : Event) : bool :=
  match ev with
  | SignMessage _ => true
  | _ => false
  end.

(** The event does not reset the manually-disconnected flag. *)
Definition keeps_flag (ev : Event) : bool :=
  match ev with
  | SetManuallyDisconnected false => false
  | _ => true
  end.

(** What can happen to the mounted component: the user clicks connect or
    disconnect, or the wallet reports other accounts. *)
Inductive Action :=
| Connect (w : Wallet)
| Disconnect
| AccountsChanged (w : Wallet) (accounts : list string).

Definition handle (props : Props) (st : State) (a : Action) : M Event unit :=
  match a with
  | Connect w => connectWallet props w
  | Disconnect => disconnectWallet props
  | AccountsChanged w accounts => accountsChanged props w st accounts
  end.

Definition step (props : Props) (st : State) (a : Action) : State :=
  run st (trace (handle props st a)).

Definition steps (props : Props) (st : State) (l : list Action) : State :=
  fold_left (step props) l st.

(** The signature check of steps 4 and 5 of [connect], as the specification words
    it: the wallet signs the challenge for [a] and the address recovered
    from that signature is [a] up to letter case. *)
Definition passes_verification (w : Wallet) (a : string) : Prop :=
  exists signature recovered,
    signMessage w (challenge a (now w)) = Resolved signature /\
    verifyMessage w (challenge a (now w)) signature = Resolved recovered /\
    toLowerCase recovered = toLowerCase a.

End ConnectWallet.

(* ------------------------------------------------------------------ *)
(** ** NoteEditor.jsx: saving a note *)

Module NoteEditor.

(** A decoded event argument: a [BigNumber] or a string. *)
Inductive Arg :=
| ArgBigNumber (v : Z)
| ArgString (s : string).

(** An entry of [receipt.events]: [event.event], [event.topics?.[0]] and
    [event.args], an object keyed by the argument names of the ABI. *)
Record LogEvent := {
  event : option string;
  topic0 : option string;
  args : option (list (string * Arg))
}.

Record TxReceipt := { events : option (list LogEvent) }.

(** A dispatched transaction: [tx.hash] and what the two [tx.wait()] of
    [handleSubmit] settle with. *)
Record Tx := {
  hash : string;
  wait_first : Outcome TxReceipt;
  wait_second : Outcome TxReceipt
}.

Record Signer := { _isSigner : bool }.

(** The provider, [ethers.utils.isAddress] and the contract. *)
Record Backend := {
  getSigner : Outcome Signer;
  isAddress : string -> bool;
  createNote : string -> string -> Outcome Tx;
  updateNote : option Z -> string -> string -> Outcome Tx
}.

Record Props := {
  contractAddress : string;
  provider : bool;
  account : string;
  noteId : option Z;
  onSaved : bool;
  readOnly : bool
}.

Record State := {
  title : string;
  content : string;
  loading : bool;
  saving : bool;
  error : string;
  success : string;
  isNewNote : bool
}.

(** A call made when a timer fires. *)
Inductive Call := OnSaved (savedNoteId : option Z).

Inductive Event :=
| SetSaving (b : bool)
| SetError (e : string)
| SetSuccess (s : string)
| GetSigner
| CreateNote (title content : string) (gasLimit : Z) (from : string)
| UpdateNote (noteId : option Z) (title content : string) (gasLimit : Z)
             (from : string)
| Wait
| SetTimeout (calls : list Call) (ms : Z).

Definition apply (st : State) (ev : Event) : State :=
  match ev with
  | SetSaving b =>
      {| title := title st; content := content st; loading := loading st;
         saving := b; error := error st; success := success st;
         isNewNote := isNewNote st |}
  | SetError e =>
      {| title := title st; content := content st; loading := loading st;
         saving := saving st; error := e; success := success st;
         isNewNote := isNewNote st |}
  | SetSuccess s =>
      {| title := title st; content := content st; loading := loading st;
         saving := saving st; error := error st; success := s;
         isNewNote := isNewNote st |}
  | GetSigner | CreateNote _ _ _ _ | UpdateNote _ _ _ _ _ | Wait
  | SetTimeout _ _ => st
  end.

Definition run (st : State) (tr : list Event) : State := fold_left apply tr st.

(** A transaction was handed to the contract. *)
Definition is_dispatch (ev : Event) : bool :=
  match ev with
  | CreateNote _ _ _ _ | UpdateNote _ _ _ _ _ => true
  | _ => false
  end.

(** Any request to the provider or the contract. *)
Definition is_request (ev : Event) : bool :=
  match ev with
  | GetSigner | CreateNote _ _ _ _ | UpdateNote _ _ _ _ _ | Wait => true
  | _ => false
  end.

(** A failure is reported: [setError] with a message. *)
Definition is_failure_report (ev : Event) : bool :=
  match ev with
  | SetError e => truthy e
  | _ => false
  end.

(** The [onSaved] calls the handler scheduled. *)
Fixpoint scheduled (tr : list Event) : list Call :=
  match tr with
  | [] => []
  | SetTimeout calls _ :: tr' => calls ++ scheduled tr'
  | _ :: tr' => scheduled tr'
  end.

(** [Number.MAX_SAFE_INTEGER]; [BigNumber.toNumber] throws beyond it. *)
Definition MAX_SAFE_INTEGER : Z := 9007199254740991.

Definition toNumber {Ev} (a : Arg) : M Ev Z :=
  match a with
  | ArgBigNumber v =>
      if (Z.abs v <=? MAX_SAFE_INTEGER)%Z then ret v
      else throw (new_Error "overflow")
  | ArgString _ => throw (new_Error "toNumber is not a function")
  end.

(** [event.event === 'NoteCreated' || event.topics?.[0]?.includes('NoteCreated')]. *)
Definition isNoteCreated (e : LogEvent) : bool :=
  match event e with
  | Some name => String.eqb name "NoteCreated"
  | None => false
  end ||
  match topic0 e with
  | Some t => includes t "NoteCreated"
  | None => false
  end.

(** [o.args?.noteId]: the property named [noteId] of the args object. *)
Fixpoint lookup (k : string) (o : list (string * Arg)) : option Arg :=
  match o with
  | [] => None
  | (k', v) :: o' => if String.eqb k k' then Some v else lookup k o'
  end.

Definition arg_truthy (a : Arg) : bool :=
  match a with
  | ArgBigNumber _ => true
  | ArgString s => truthy s
  end.

(** The id extraction of [handleSubmit]: the new value of [savedNoteId]
    ([None] is [null]). *)
Definition extractNoteId {Ev} (r : TxReceipt) : M Ev (option Z) :=
  match events r with
  | Some (e :: es) =>
      match find isNoteCreated (e :: es) with
      | Some noteCreatedEvent =>
          match args noteCreatedEvent with
          | Some o =>
              match lookup "noteId" o with
              | Some a =>
                  if arg_truthy a then n <- toNumber a ;; ret (Some n)
                  else ret None
              | None => ret None
              end
          | None => ret None
          end
      | None => ret None
      end
  | _ => ret None
  end.

(** [innerErr.error && innerErr.error.message]. *)
Definition nested_message (innerErr : Error) : bool :=
  match error_message innerErr with
  | Some m => truthy m
  | None => false
  end.

(** The inner [catch (innerErr)]: the error it throws on. *)
Definition innerCatch (innerErr : Error) : Error :=
  if nested_message innerErr then
    new_Error (or_empty (error_message innerErr))
  else if message_includes (message innerErr) "user rejected" then
    new_Error "Transaction was rejected in your wallet."
  else if message_includes (message innerErr) "note does not exist" then
    new_Error "Note does not exist or you don't have permission to edit it."
  else if message_includes (message innerErr) "registered" then
    new_Error "Your wallet isn't correctly registered with the contract."
  else innerErr.

(** [receiptStatus] and [transactionHash] of the outer [catch]. *)
Definition receiptStatus (err : Error) : option Z :=
  match receipt err with Some r => Some (status r) | None => None end.

Definition transactionHash (err : Error) : option string :=
  match receipt err with
  | Some r => Some (Js.transactionHash r)
  | None =>
      match transaction_hash err with
      | Some h => if truthy h then Some h else None
      | None => None
      end
  end.

Definition suggestions : string :=
  LF ++ LF ++ "To fix this issue:" ++
  LF ++ "1. Check contract addresses in src/contracts/addresses.js" ++
  LF ++ "2. Make sure both Solidity and Rust contracts are properly deployed" ++
  LF ++ "3. Verify that your wallet has enough ETH for transaction fees".

(** The text for a transaction that was mined with [status] 0. *)
Definition revertedText (hash : option string) : string :=
  "Transaction was sent to the blockchain but failed during execution. This is likely due to a problem with the encryption contract setup. " ++
  "Check encryption contract address in src/contracts/addresses.js file." ++
  match hash with
  | Some h => if truthy h then LF ++ LF ++ "Transaction Hash: " ++ h else ""
  | None => ""
  end.

(** The chain of message patterns of the outer [catch], for an error
    whose receipt status is not 0. *)
Definition patternText (err : Error) : string :=
  if message_includes (message err) "execution reverted" then
    "Transaction was rejected by the smart contract. There may be an issue with the encryption contract."
  else if message_includes (message err) "UNPREDICTABLE_GAS_LIMIT" then
    "Gas estimation failed. The contract or function may not exist at the specified address."
  else if message_includes (message err) "insufficient funds" then
    "Your wallet doesn't have enough ETH to pay for this transaction."
  else if message_includes (message err) "contract not responding" then
    "The encryption contract is not responding. Contract addresses may be incorrect."
  else if message_includes (message err) "contract address is invalid" then
    "One of the contract addresses is in an invalid format. Please check configuration."
  else if truthy (or_empty (message err)) then or_empty (message err)
  else "Unknown error occurred. Check browser console for details.".

(** The fixed head and tail of every message of the outer [catch]. *)
Definition report (body : string) : string :=
  "Failed to save note. " ++ body ++ suggestions.

(** [errorMessage] as the outer [catch (err)] builds it. *)
Definition errorMessage (err : Error) : string :=
  report (match receiptStatus err with
          | Some 0%Z => revertedText (transactionHash err)
          | _ => patternText err
          end).

(** The signals of a failure, as the specification names them: the wallet
    user rejected the request; the transaction was mined with status 0. *)
Definition rejection_signal (err : Error) : bool :=
  message_includes (message err) "user rejected".

Definition zero_status_signal (err : Error) : bool :=
  match receiptStatus err with
  | Some 0%Z => true
  | _ => false
  end.

(** The outer [catch (err)]. *)
Definition outerCatch (err : Error) : M Event unit :=
  emit (SetError (errorMessage err)).

(** [savedNoteId] once the transaction [tx] is confirmed: the [noteId] prop
    for an update; for a new note [null], replaced by the id of the
    creation event when the receipt gives one.  The extraction sits in a
    [try] of its own whose [catch] keeps [null]. *)
Definition savedNoteIdOf (props : Props) (st : State) (tx : Tx)
  : M Event (option Z) :=
  if isNewNote st && truthy (hash tx) then
    try_catch
      (receipt <- await Wait (wait_second tx) ;;
       extractNoteId receipt)
      (fun eventErr => ret None)
  else ret (if isNewNote st then None else noteId props).

(** The statements of the inner [try]: dispatch, confirmation, id
    extraction and the timer that calls [onSaved]. *)
Definition dispatchAndConfirm (props : Props) (b : Backend) (st : State)
  : M Event unit :=
  tx <- (if isNewNote st then
           await (CreateNote (title st) (content st) 500000 (account props))
                 (createNote b (title st) (content st))
         else
           await (UpdateNote (noteId props) (title st) (content st) 500000
                             (account props))
                 (updateNote b (noteId props) (title st) (content st))) ;;
  _ <- await Wait (wait_first tx) ;;
  emit (SetSuccess (if isNewNote st then "Note created successfully!"
                    else "Note updated successfully!")) ;;;
  savedNoteId <- savedNoteIdOf props st tx ;;
  emit (SetTimeout (if onSaved props then [OnSaved savedNoteId] else []) 2000).

(** The statements of the outer [try]. *)
Definition save (props : Props) (b : Backend) (st : State) : M Event unit :=
  signer <- await GetSigner (getSigner b) ;;
  if negb (isAddress b (contractAddress props)) then
    throw (new_Error "Contract address is invalid. Please check your configuration.")
  else if negb (_isSigner signer) then
    throw (new_Error "No valid signer available. Please reconnect your wallet.")
  else
    try_catch (dispatchAndConfirm props b st)
              (fun innerErr => throw (innerCatch innerErr)).

(** [!provider || !account || !contractAddress]. *)
Definition unauthenticated (props : Props) : bool :=
  negb (provider props) || negb (truthy (account props)) ||
  negb (truthy (contractAddress props)).

(** [handleSubmit(e)]. *)
Definition handleSubmit (props : Props) (b : Backend) (st : State)
  : M Event unit :=
  if readOnly props then ret tt
  else if negb (truthy (trim (title st))) then
    emit (SetError "Please enter a title for your note")
  else if unauthenticated props then
    emit (SetError "Please connect your wallet first")
  else
    emit (SetSaving true) ;;;
    emit (SetError "") ;;;
    emit (SetSuccess "") ;;;
    finally (try_catch (save props b st) outerCatch)
            (emit (SetSaving false)).

End NoteEditor.

(* ------------------------------------------------------------------ *)
(** ** App.js: the note view state *)

Module App.

(** The [editorKey] strings, by the template that builds them; [t] is the
    [Date.now()] the template prints. *)
Inductive Key :=
| KeyInitial
| KeyWalletChange
| KeyView (noteId : Z)
| KeyCreate (t : N)
| KeyEdit (noteId : Z) (t : N)
| KeySaved (noteId : option Z)
| KeyCanceled (t : N)
| KeyViewAgain (noteId : Z) (t : N)
| KeyWelcome (t : N).

(** [noteState]; a field that an update leaves out is [undefined]. *)
Record NoteState := {
  selectedNoteId : option Z;
  isEditing : bool;
  editorKey : Key;
  refreshTrigger : option N
}.

Definition initial (t : N) : NoteState :=
  {| selectedNoteId := None; isEditing := false; editorKey := KeyInitial;
     refreshTrigger := Some t |}.

(** [a || b] on ids: [null] and [0] are falsy. *)
Definition or_else (a b : option Z) : option Z :=
  match a with
  | Some v => if (v =? 0)%Z then b else Some v
  | None => b
  end.

(** The [setNoteState] of [handleConnect]. *)
Definition handleConnect (prev : NoteState) : NoteState :=
  {| selectedNoteId := None; isEditing := false;
     editorKey := KeyWalletChange; refreshTrigger := None |}.

(** [handleSelectNote(noteId)]. *)
Definition handleSelectNote (noteId : Z) (prev : NoteState) : NoteState :=
  {| selectedNoteId := Some noteId; isEditing := false;
     editorKey := KeyView noteId; refreshTrigger := None |}.

(** [handleCreateNote()]. *)
Definition handleCreateNote (t : N) (prev : NoteState) : NoteState :=
  {| selectedNoteId := None; isEditing := true; editorKey := KeyCreate t;
     refreshTrigger := None |}.

(** [handleEditNote()]. *)
Definition handleEditNote (t : N) (prev : NoteState) : NoteState :=
  match selectedNoteId prev with
  | Some id =>
      {| selectedNoteId := selectedNoteId prev; isEditing := true;
         editorKey := KeyEdit id t; refreshTrigger := refreshTrigger prev |}
  | None => prev
  end.

(** The first [setNoteState] of [handleNoteSaved(noteId)]. *)
Definition handleNoteSaved (noteId : option Z) (prev : NoteState) : NoteState :=
  {| selectedNoteId := or_else noteId (selectedNoteId prev);
     isEditing := false;
     editorKey := KeySaved (or_else (or_else noteId (selectedNoteId prev)) None);
     refreshTrigger := refreshTrigger prev |}.

(** The [setNoteState] of each of the two refresh timers of
    [handleNoteSaved], 2000 ms and 4000 ms more after the save. *)
Definition refreshAttempt (t : N) (prev : NoteState) : NoteState :=
  {| selectedNoteId := selectedNoteId prev; isEditing := isEditing prev;
     editorKey := editorKey prev; refreshTrigger := Some t |}.

(** [handleCancelEdit()]. *)
Definition handleCancelEdit (t : N) (prev : NoteState) : NoteState :=
  match selectedNoteId prev with
  | None =>
      {| selectedNoteId := selectedNoteId prev; isEditing := false;
         editorKey := if isEditing prev then KeyCanceled t else KeyWelcome t;
         refreshTrigger := refreshTrigger prev |}
  | Some id =>
      {| selectedNoteId := selectedNoteId prev; isEditing := false;
         editorKey := KeyViewAgain id t;
         refreshTrigger := refreshTrigger prev |}
  end.

(** What [renderMainContent] shows: the state of the record view. *)
Inductive View :=
| NoSession
| Browsing
| Viewing (id : Z)
| Creating
| Editing (id : Z).

Definition view (account : string) (ns : NoteState) : View :=
  if negb (truthy account) then NoSession
  else if isEditing ns then
    match selectedNoteId ns with
    | None => Creating
    | Some id => Editing id
    end
  else
    match selectedNoteId ns with
    | Some id => Viewing id
    | None => Browsing
    end.

(** The editor's timers fire: each scheduled [onSaved(id)] is
    [handleNoteSaved]. *)
Definition deliver (calls : list NoteEditor.Call) (ns : NoteState) : NoteState :=
  fold_left (fun s c => match c with NoteEditor.OnSaved id => handleNoteSaved id s end)
            calls ns.

(** The editor as [renderMainContent] mounts it while [isEditing]: the
    selection is its [noteId]; the load effect has set [isNewNote]. *)
Definition editorProps (contractAddress : string) (provider : bool)
    (account : string) (ns : NoteState) : NoteEditor.Props :=
  {| NoteEditor.contractAddress := contractAddress;
     NoteEditor.provider := provider;
     NoteEditor.account := account;
     NoteEditor.noteId := selectedNoteId ns;
     NoteEditor.onSaved := true;
     NoteEditor.readOnly := false |}.

End App.

(* ------------------------------------------------------------------ *)
(** ** App.js: ContractDiagnostics *)

Module ContractDiagnostics.

(** One slot of [results]: [{ valid, error }]. *)
Record Check := { valid : bool; error : option string }.

Record Results := {
  contract : Check;
  noteCreation : Check;
  encryption : Check
}.

Record DiagnosticState := {
  running : bool;
  completed : bool;
  results : Results
}.

Definition blank : Check := {| valid := false; error := None |}.

(** The fresh [results] object of a run. *)
Definition fresh : Results :=
  {| contract := blank; noteCreation := blank; encryption := blank |}.

Inductive Slot := Contract | NoteCreation | Encryption.

(** The node and the contract as a run meets them: [ethers.utils.isAddress]
    on the configured address, [provider.getSigner()] with the
    construction of the contract object, and the three calls. *)
Record Chain := {
  isAddress : bool;
  connect : Outcome unit;
  getEncryptionContractAddress : Outcome string;
  encryptNote : Outcome string;
  getNoteCount : Outcome Z
}.

(** What a run does, in program order: the calls it sends, the
    assignments to the slots of [results] and the two
    [setDiagnosticState]. *)
Inductive Event :=
| SetRunning
| Connect
| CallGetEncryptionContractAddress (gasLimit : Z)
| CallEncryptNote (data : string) (gasLimit : Z)
| CallGetNoteCount (gasLimit : Z)
| SetValid (s : Slot)
| SetErrorOf (s : Slot) (msg : string)
| Publish.

Definition set_valid (c : Check) : Check :=
  {| valid := true; error := error c |}.

Definition set_error (msg : string) (c : Check) : Check :=
  {| valid := valid c; error := Some msg |}.

Definition update (s : Slot) (f : Check -> Check) (r : Results) : Results :=
  match s with
  | Contract =>
      {| contract := f (contract r); noteCreation := noteCreation r;
         encryption := encryption r |}
  | NoteCreation =>
      {| contract := contract r; noteCreation := f (noteCreation r);
         encryption := encryption r |}
  | Encryption =>
      {| contract := contract r; noteCreation := noteCreation r;
         encryption := f (encryption r) |}
  end.

Definition apply (r : Results) (ev : Event) : Results :=
  match ev with
  | SetValid s => update s set_valid r
  | SetErrorOf s msg => update s (set_error msg) r
  | _ => r
  end.

(** The [results] object after the assignments of a run. *)
Definition report (tr : list Event) : Results := fold_left apply tr fresh.

(** [e.message || "Unknown error"]. *)
Definition message_or_unknown (e : Error) : string :=
  if truthy (or_empty (message e)) then or_empty (message e)
  else "Unknown error".

(** The three calls of step 2, each in a [try] of its own. *)
Definition probes (c : Chain) : M Event unit :=
  try_catch
    (_ <- await (CallGetEncryptionContractAddress 100000)
                (getEncryptionContractAddress c) ;;
     emit (SetValid Contract))
    (fun viewErr =>
       emit (SetErrorOf Contract
               ("Contract exists but view function failed: " ++
                message_or_unknown viewErr))) ;;;
  try_catch
    (_ <- await (CallEncryptNote "Test content" 150000) (encryptNote c) ;;
     emit (SetValid Encryption))
    (fun encryptErr =>
       emit (SetErrorOf Encryption
               ("Failed to encrypt test data: " ++
                message_or_unknown encryptErr))) ;;;
  try_catch
    (_ <- await (CallGetNoteCount 100000) (getNoteCount c) ;;
     emit (SetValid NoteCreation))
    (fun noteErr =>
       emit (SetErrorOf NoteCreation
               ("Failed to check note count: " ++
                message_or_unknown noteErr))).

(** [runDiagnostics]; [provider] and [account] say whether the props are
    truthy. *)
Definition runDiagnostics (provider account : bool) (c : Chain)
  : M Event unit :=
  if negb provider || negb account then ret tt
  else
    emit SetRunning ;;;
    finally
      (try_catch
         ((if negb (isAddress c)
           then emit (SetErrorOf Contract "Invalid contract address format")
           else ret tt) ;;;
          try_catch
            (await Connect (connect c) ;;; probes c)
            (fun err =>
               emit (SetErrorOf Contract
                       ("Failed to connect to contract: " ++
                        message_or_unknown err))))
         (fun e => ret tt))
      (emit Publish).

(** The component state after a run that started from [prev]: the last
    [setDiagnosticState] carries the [results] of the run. *)
Definition after (prev : DiagnosticState) (tr : list Event) : DiagnosticState :=
  if existsb (fun ev => match ev with Publish => true | _ => false end) tr
  then {| running := false; completed := true; results := report tr |}
  else prev.

(** What a slot reports for the outcome of its own call alone: passed
    with no message, or failed with the message of its own error after
    [prefix]. *)
Definition slot_of {A} (prefix : string) (o : Outcome A) : Check :=
  match o with
  | Resolved _ => {| valid := true; error := None |}
  | Rejected e => {| valid := false; error := Some (prefix ++ message_or_unknown e)%string |}
  end.

(** A check ran when its call was sent. *)
Definition ran (s : Slot) (tr : list Event) : bool :=
  existsb (fun ev =>
             match s, ev with
             | Contract, CallGetEncryptionContractAddress _ => true
             | Encryption, CallEncryptNote _ _ => true
             | NoteCreation, CallGetNoteCount _ => true
             | _, _ => false
             end) tr.

End ContractDiagnostics.

(* ------------------------------------------------------------------ *)
(** ** NotesList.jsx: fetching the list *)

Module NotesList.

(** An entry of [notes].  [timestamp] is [Number(timestamps[index])]:
    [None] is the [NaN] of a missing entry.  The display string
    [formattedDate] is a function of [timestamp] and is left out. *)
Record Note := {
  id : Z;
  title : string;
  timestamp : option Z
}.

Record State := {
  notes : list Note;
  loading : bool;
  error : string
}.

Record Props := {
  contractAddress : string;
  provider : bool;
  account : string
}.

(** The provider and the contract's [getNotesList], three parallel
    arrays. *)
Record Backend := {
  getSigner : Outcome unit;
  getNotesList : Outcome (list Z * list string * list Z)
}.

Inductive Event :=
| SetNotes (l : list Note)
| SetLoading (b : bool)
| SetError (e : string)
| GetSigner
| GetNotesList (gasLimit : Z).

Definition apply (st : State) (ev : Event) : State :=
  match ev with
  | SetNotes l => {| notes := l; loading := loading st; error := error st |}
  | SetLoading b => {| notes := notes st; loading := b; error := error st |}
  | SetError e => {| notes := notes st; loading := loading st; error := e |}
  | GetSigner | GetNotesList _ => st
  end.

Definition run (st : State) (tr : list Event) : State := fold_left apply tr st.

(** [titles[index] || "Untitled Note"]. *)
Definition title_or_default (t : option string) : string :=
  match t with
  | Some s => if truthy s then s else "Untitled Note"
  | None => "Untitled Note"
  end.

(** [ids.map((id, index) => ...)], from [index] on. *)
Fixpoint format (index : nat) (ids : list Z) (titles : list string)
    (timestamps : list Z) : list Note :=
  match ids with
  | [] => []
  | i :: ids' =>
      {| id := i;
         title := title_or_default (nth_error titles index);
         timestamp := nth_error timestamps index |}
      :: format (S index) ids' titles timestamps
  end.

(** The comparator [(a, b) => b.timestamp - a.timestamp]; a [NaN]
    result counts as 0, as [Array.prototype.sort] takes it. *)
Definition compare (a b : Note) : Z :=
  match timestamp b, timestamp a with
  | Some tb, Some ta => (tb - ta)%Z
  | _, _ => 0%Z
  end.

(** [Array.prototype.sort] is stable: [x], which came before the
    elements of [l] in the array, goes before the first element it does
    not have to follow. *)
Fixpoint insert (x : Note) (l : list Note) : list Note :=
  match l with
  | [] => [x]
  | y :: l' => if (compare x y <=? 0)%Z then x :: y :: l' else y :: insert x l'
  end.

Fixpoint sort (l : list Note) : list Note :=
  match l with
  | [] => []
  | x :: l' => insert x (sort l')
  end.

(** [fetchNotes]. *)
Definition fetchNotes (props : Props) (b : Backend) : M Event unit :=
  if negb (provider props) || negb (truthy (account props)) ||
     negb (truthy (contractAddress props))
  then
    emit (SetNotes []) ;;;
    emit (SetLoading false) ;;;
    emit (SetError "Wallet not connected or contract not available.")
  else
    emit (SetLoading true) ;;;
    emit (SetError "") ;;;
    finally
      (try_catch
         (_ <- await GetSigner (getSigner b) ;;
          lists <- await (GetNotesList 500000) (getNotesList b) ;;
          let '(ids, titles, timestamps) := lists in
          let formattedNotes := sort (format 0 ids titles timestamps) in
          emit (SetNotes formattedNotes) ;;;
          emit (SetError ""))
         (fun err =>
            emit (SetError "Failed to load notes. Please try refreshing.") ;;;
            emit (SetNotes [])))
      (emit (SetLoading false)).

(** The order the specification states for the list: newer first, and
    among equal timestamps the larger id first. *)
Definition spec_before (a b : Note) : Prop :=
  match timestamp a, timestamp b with
  | Some ta, Some tb => (tb < ta)%Z \/ (ta = tb /\ (id b <= id a)%Z)
  | _, _ => False
  end.

(** The order of the comparator alone: not older than the next one. *)
Definition not_older (a b : Note) : Prop :=
  match timestamp a, timestamp b with
  | Some ta, Some tb => (tb <= ta)%Z
  | _, _ => False
  end.

(** The timestamp of [n] is a number, not [NaN]. *)
Definition timed (n : Note) : Prop := timestamp n <> None.

(** The entries of [l] with timestamp [t], in the order of [l]. *)
Definition at_time (t : Z) (l : list Note) : list Note :=
  filter (fun n => match timestamp n with
                   | Some tn => (tn =? t)%Z
                   | None => false
                   end) l.

End NotesList.

(* ------------------------------------------------------------------ *)
(** ** ConnectWallet.jsx: kinds of events *)

Module WalletEvents.
Import ConnectWallet.

(** The only events of a network switch. *)
Definition switch_event (ev : Event) : bool :=
  match ev with
  | SwitchChain | AddChain | SetError _ => true
  | _ => false
  end.

(** A request sent to the wallet. *)
Definition is_wallet_request (ev : Event) : bool :=
  match ev with
  | SwitchChain | AddChain | RequestAccounts | SignMessage _ => true
  | _ => false
  end.

End WalletEvents.

(* ------------------------------------------------------------------ *)
(** ** NotesList.jsx: kinds of events *)

Module ListEvents.
Import NotesList.

(** A request sent to the provider or the contract. *)
Definition is_request (ev : Event) : bool :=
  match ev with
  | GetSigner | GetNotesList _ => true
  | _ => false
  end.

(** [!provider || !account || !contractAddress] for the list. *)
Definition disconnected (props : Props) : bool :=
  negb (provider props) || negb (truthy (account props)) ||
  negb (truthy (contractAddress props)).

End ListEvents.

(* ------------------------------------------------------------------ *)
(** ** NoteEditor.jsx: loading a note *)

Module NoteLoader.
Import NoteEditor.

(** The provider and the contract's [getNote], whose answer starts with
    the title and the content. *)
Record Backend := {
  getSigner : Outcome unit;
  getNote : Z -> Outcome (string * string)
}.

Inductive Event :=
| SetTitle (s : string)
| SetContent (s : string)
| SetError (e : string)
| SetSuccess (s : string)
| SetIsNewNote (b : bool)
| SetLoading (b : bool)
| GetSigner
| GetNote (noteId : Z).

Definition apply (st : State) (ev : Event) : State :=
  match ev with
  | SetTitle s =>
      {| title := s; content := content st; loading := loading st;
         saving := saving st; error := error st; success := success st;
         isNewNote := isNewNote st |}
  | SetContent s =>
      {| title := title st; content := s; loading := loading st;
         saving := saving st; error := error st; success := success st;
         isNewNote := isNewNote st |}
  | SetError e =>
      {| title := title st; content := content st; loading := loading st;
         saving := saving st; error := e; success := success st;
         isNewNote := isNewNote st |}
  | SetSuccess s =>
      {| title := title st; content := content st; loading := loading st;
         saving := saving st; error := error st; success := s;
         isNewNote := isNewNote st |}
  | SetIsNewNote b =>
      {| title := title st; content := content st; loading := loading st;
         saving := saving st; error := error st; success := success st;
         isNewNote := b |}
  | SetLoading b =>
      {| title := title st; content := content st; loading := b;
         saving := saving st; error := error st; success := success st;
         isNewNote := isNewNote st |}
  | GetSigner | GetNote _ => st
  end.

Definition run (st : State) (tr : list Event) : State := fold_left apply tr st.

Definition is_request (ev : Event) : bool :=
  match ev with
  | GetSigner | GetNote _ => true
  | _ => false
  end.

(** [loadNote], the body of the effect on [noteId]. *)
Definition loadNote (props : Props) (b : Backend) : M Event unit :=
  emit (SetTitle "") ;;;
  emit (SetContent "") ;;;
  emit (SetError "") ;;;
  emit (SetSuccess "") ;;;
  match noteId props with
  | Some id =>
      emit (SetIsNewNote false) ;;;
      emit (SetLoading true) ;;;
      finally
        (try_catch
           (if unauthenticated props then
              throw (new_Error "Missing required connection parameters")
            else
              _ <- await GetSigner (getSigner b) ;;
              note <- await (GetNote id) (getNote b id) ;;
              emit (SetTitle (fst note)) ;;;
              emit (SetContent (snd note)))
           (fun err =>
              emit (SetError ("Failed to load note. " ++
                              or_empty (message err)))))
        (emit (SetLoading false))
  | None => emit (SetIsNewNote true)
  end.

(** The [onChange] of the title and content inputs: the typed text
    replaces the field unless the editor is read-only. *)
Definition onChangeTitle (props : Props) (v : string) (st : State) : State :=
  if readOnly props then st
  else {| title := v; content := content st; loading := loading st;
          saving := saving st; error := error st; success := success st;
          isNewNote := isNewNote st |}.

Definition onChangeContent (props : Props) (v : string) (st : State) : State :=
  if readOnly props then st
  else {| title := title st; content := v; loading := loading st;
          saving := saving st; error := error st; success := success st;
          isNewNote := isNewNote st |}.

(** The transaction [handleSubmit] sends for a form: a creation for a new
    note, an update of the [noteId] prop otherwise, with the fixed gas
    limit and the account as sender. *)
Definition dispatchOf (props : Props) (st : State) : NoteEditor.Event :=
  if isNewNote st then
    CreateNote (title st) (content st) 500000 (NoteEditor.account props)
  else
    UpdateNote (noteId props) (title st) (content st) 500000
               (NoteEditor.account props).

(** The submission passes every check made before the dispatch: the
    editor is not read-only, the title is not blank, the session is there,
    a signer is obtained and it and the contract address are valid. *)
Definition ready (props : Props) (b : NoteEditor.Backend) (st : State) : bool :=
  negb (readOnly props) && negb (all_space (title st)) &&
  negb (unauthenticated props) &&
  match NoteEditor.getSigner b with
  | Resolved signer => isAddress b (contractAddress props) && _isSigner signer
  | Rejected _ => false
  end.

End NoteLoader.

(* ------------------------------------------------------------------ *)
(** ** abis.js: the creation event *)

Module Abi.

(** The names of the inputs of the [NoteCreated] event, the keys of the
    decoded [args]. *)
Definition NoteCreated_inputs : list string := ["owner"; "note_id"; "title"].

End Abi.

(* ------------------------------------------------------------------ *)
(** ** App.js: the application state and the wallet *)

Module AppSession.
Import App.

(** [account], [provider] and [noteState] of the [App] component. *)
Record AppState := {
  account : string;
  provider : option ConnectWallet.Provider;
  noteState : NoteState
}.

(** [useState('')], [useState(null)] and the initial [noteState]. *)
Definition initial (t : N) : AppState :=
  {| account := ""; provider := None; noteState := App.initial t |}.

(** [handleConnect(walletAddress, ethersProvider)]. *)
Definition handleConnect (walletAddress : string)
    (ethersProvider : option ConnectWallet.Provider) (s : AppState) : AppState :=
  {| account := walletAddress; provider := ethersProvider;
     noteState := App.handleConnect (noteState s) |}.

(** The header passes [handleConnect] as the [onConnected] of the wallet
    component: each call in a wallet trace reaches the application. *)
Definition onWalletEvent (s : AppState) (ev : ConnectWallet.Event) : AppState :=
  match ev with
  | ConnectWallet.OnConnected a p => handleConnect a p s
  | _ => s
  end.

Definition afterWallet (s : AppState) (tr : list ConnectWallet.Event) : AppState :=
  fold_left onWalletEvent tr s.

(** What the user and the children can make the application do. *)
Inductive Action :=
| Select (noteId : Z)
| Create (t : N)
| Edit (t : N)
| Saved (noteId : option Z)
| Cancel (t : N)
| Refresh (t : N)
| Connected (walletAddress : string) (p : option ConnectWallet.Provider).

Definition onNoteState (f : NoteState -> NoteState) (s : AppState) : AppState :=
  {| account := account s; provider := provider s;
     noteState := f (noteState s) |}.

Definition step (a : Action) (s : AppState) : AppState :=
  match a with
  | Select id => onNoteState (handleSelectNote id) s
  | Create t => onNoteState (handleCreateNote t) s
  | Edit t => onNoteState (handleEditNote t) s
  | Saved id => onNoteState (handleNoteSaved id) s
  | Cancel t => onNoteState (handleCancelEdit t) s
  | Refresh t => onNoteState (refreshAttempt t) s
  | Connected a p => handleConnect a p s
  end.

Definition steps (l : list Action) (s : AppState) : AppState :=
  fold_left (fun s a => step a s) l s.

(** The view [renderMainContent] shows for an application state. *)
Definition shown (s : AppState) : View := view (account s) (noteState s).

(** The note a view has selected. *)
Definition selection (v : View) : option Z :=
  match v with
  | Viewing id | Editing id => Some id
  | _ => None
  end.

(** The transitions between views, one per action. *)
Definition next (a : Action) (v : View) : View :=
  match a, v with
  | Connected w _, _ => if truthy w then Browsing else NoSession
  | _, NoSession => NoSession
  | Select id, _ => Viewing id
  | Create _, _ => Creating
  | Edit _, Viewing id => Editing id
  | Edit _, _ => v
  | Saved x, _ =>
      match or_else x (selection v) with
      | Some id => Viewing id
      | None => Browsing
      end
  | Cancel _, Creating => Browsing
  | Cancel _, Editing id => Viewing id
  | Cancel _, _ => v
  | Refresh _, _ => v
  end.

End AppSession.

(* ------------------------------------------------------------------ *)
(** ** App.js: the recommendations of the diagnostics *)

Module Recommendations.
Import ContractDiagnostics.

(** [CONTRACT_ADDRESSES.SECURE_NOTES_RUST]. *)
Definition SECURE_NOTES_RUST : string :=
  "0xdf6a95ff02f2fb4f8aeeabcf0dfceddda5976465".

Definition deployAdvice : string :=
  "Check that the contract is properly deployed at address: " ++
  SECURE_NOTES_RUST.

Definition encryptionAdvice : string :=
  "The contract exists but encryption functionality isn't working. This may indicate a problem with the contract deployment.".

Definition noteCreationAdvice : string :=
  "The contract exists but note creation functionality isn't working. You may need to register your wallet first.".

Definition allGood : string :=
  "The contract appears to be working correctly. If you're still experiencing issues, try registering your wallet again.".

Definition fallbackAdvice : string :=
  "Check that the contract is deployed and functioning correctly on the Fluent Devnet.".

(** [recommendations.push(x)] under a condition. *)
Definition push_if (c : bool) (x : string) (l : list string) : list string :=
  if c then l ++ [x] else l.

(** [getRecommendations()] for the [results] of the diagnostic state. *)
Definition getRecommendations (r : Results) : list string :=
  let r1 := push_if (negb (valid (contract r))) deployAdvice [] in
  let r2 := push_if (valid (contract r) && negb (valid (encryption r)))
                    encryptionAdvice r1 in
  let r3 := push_if (valid (contract r) && negb (valid (noteCreation r)))
                    noteCreationAdvice r2 in
  if (List.length r3 =? 0)%nat then
    if valid (contract r) && valid (encryption r) && valid (noteCreation r)
    then r3 ++ [allGood]
    else r3 ++ [fallbackAdvice]
  else r3.

End Recommendations.

(* ------------------------------------------------------------------ *)
(** ** Concrete wallets, backends and forms for the runs below *)

Module Fixtures.

Module Wallets.
Import ConnectWallet.

Definition alice : string := "0x00000000000000000000000000000000000000aa".
Definition bob : string := "0x00000000000000000000000000000000000000bb".

(** The checksum spelling of [alice], as [verifyMessage] returns it. *)
Definition Alice : string := "0x00000000000000000000000000000000000000Aa".

(** A wallet on the right network whose active account is [active] and
    whose signatures recover to [recovered]. *)
Definition wallet (active recovered : string) : Wallet :=
  {| ethereum := true;
     switchEthereumChain := Resolved tt;
     addEthereumChain := Resolved tt;
     requestAccounts := Resolved [active];
     signMessage := fun msg => Resolved ("0xsigned:" ++ msg)%string;
     verifyMessage := fun _ _ => Resolved recovered;
     now := 1700000000000 |}.

(** The same wallet when its user declines to sign. *)
Definition declining (active : string) : Wallet :=
  {| ethereum := true;
     switchEthereumChain := Resolved tt;
     addEthereumChain := Resolved tt;
     requestAccounts := Resolved [active];
     signMessage := fun _ =>
       Rejected {| code := Some 4001%Z;
                   message := Some "User denied message signature.";
                   error_message := None; receipt := None;
                   transaction_hash := None |};
     verifyMessage := fun _ _ => Resolved active;
     now := 1700000000000 |}.

Definition header : Props := {| onConnected := true |}.

(** The component after a first successful connect as [alice]. *)
Definition connected_as_alice : State :=
  step header initial (Connect (wallet alice Alice)).

End Wallets.

Module Editor.
Import NoteEditor.

(** A form that a user is editing, for the concrete runs below. *)
Definition draft (t c : string) (new : bool) : State :=
  {| title := t; content := c; loading := false; saving := false;
     error := ""; success := ""; isNewNote := new |}.

(** A backend whose requests all succeed; a new note's receipt carries
    [receipt]. *)
Definition backend_ok (receipt : TxReceipt) : Backend :=
  let tx := {| hash := "0xabc"; wait_first := Resolved receipt;
               wait_second := Resolved receipt |} in
  {| getSigner := Resolved {| _isSigner := true |};
     isAddress := fun _ => true;
     createNote := fun _ _ => Resolved tx;
     updateNote := fun _ _ _ => Resolved tx |}.

(** A backend whose dispatch is rejected with [e]. *)
Definition backend_dispatch_rejected (e : Error) : Backend :=
  {| getSigner := Resolved {| _isSigner := true |};
     isAddress := fun _ => true;
     createNote := fun _ _ => Rejected e;
     updateNote := fun _ _ _ => Rejected e |}.

(** A backend whose transaction is mined and fails: [tx.wait()] rejects
    with [e]. *)
Definition backend_reverted (e : Error) : Backend :=
  let tx := {| hash := "0xabc"; wait_first := Rejected e;
               wait_second := Rejected e |} in
  {| getSigner := Resolved {| _isSigner := true |};
     isAddress := fun _ => true;
     createNote := fun _ _ => Resolved tx;
     updateNote := fun _ _ _ => Resolved tx |}.

(** The wallet user declined the transaction. *)
Definition user_rejected : Error :=
  {| code := Some 4001%Z; message := Some "user rejected transaction";
     error_message := None; receipt := None; transaction_hash := None |}.

(** A mined transaction with status 0 whose message also matches the
    pattern [registered]. *)
Definition reverted_unregistered : Error :=
  {| code := None;
     message := Some "transaction failed: caller is not registered";
     error_message := None;
     receipt := Some {| status := 0; Js.transactionHash := "0xabc" |};
     transaction_hash := None |}.

(** A rejection reported by a provider that nests its own error. *)
Definition rejected_with_nested_error : Error :=
  {| code := None; message := Some "user rejected transaction";
     error_message := Some "Internal JSON-RPC error.";
     receipt := None; transaction_hash := None |}.

Definition no_events : TxReceipt := {| events := Some [] |}.

(** The receipt of a creation whose [NoteCreated] event carries
    [args.noteId = id]. *)
Definition created (id : Z) : TxReceipt :=
  {| events := Some
       [ {| event := Some "NoteCreated"; topic0 := Some "0x5f0e";
            args := Some [ ("owner", ArgString "0x00000000000000000000000000000000000000aa");
                           ("noteId", ArgBigNumber id);
                           ("title", ArgString "T") ] |} ] |}.

(** The same event decoded with the argument names of the repository's
    ABI ([owner], [note_id], [title]). *)
Definition created_by_abi (id : Z) : TxReceipt :=
  {| events := Some
       [ {| event := Some "NoteCreated"; topic0 := Some "0x5f0e";
            args := Some [ ("owner", ArgString "0x00000000000000000000000000000000000000aa");
                           ("note_id", ArgBigNumber id);
                           ("title", ArgString "T") ] |} ] |}.

(** Props of an editor mounted for a connected wallet. *)
Definition connected (id : option Z) : Props :=
  {| contractAddress := "0xdf6a95ff02f2fb4f8aeeabcf0dfceddda5976465";
     provider := true; account := "0x00000000000000000000000000000000000000aa";
     noteId := id; onSaved := true; readOnly := false |}.

(** The same editor with no account. *)
Definition disconnected (id : option Z) : Props :=
  {| contractAddress := "0xdf6a95ff02f2fb4f8aeeabcf0dfceddda5976465";
     provider := false; account := "";
     noteId := id; onSaved := true; readOnly := false |}.

(** The application right after "New Note" was clicked. *)
Definition creating : App.NoteState := App.handleCreateNote 1700000000000 (App.initial 1699999999000).

(** The application while note [id] is edited. *)
Definition editing (id : Z) : App.NoteState :=
  App.handleEditNote 1700000000000 (App.handleSelectNote id (App.initial 1699999999000)).

Definition alice : string := "0x00000000000000000000000000000000000000aa".

End Editor.

Module Diagnostics.
Import ContractDiagnostics.

Definition view_reverted : Error :=
  {| code := None; message := Some "call revert exception";
     error_message := None; receipt := None; transaction_hash := None |}.

(** A contract whose view call fails while the two other calls answer. *)
Definition only_view_fails : Chain :=
  {| isAddress := true;
     connect := Resolved tt;
     getEncryptionContractAddress := Rejected view_reverted;
     encryptNote := Resolved "0x1234";
     getNoteCount := Resolved 3%Z |}.

End Diagnostics.

Module List.
Import NotesList.

Definition connected : Props :=
  {| contractAddress := "0xdf6a95ff02f2fb4f8aeeabcf0dfceddda5976465";
     provider := true;
     account := "0x00000000000000000000000000000000000000aa" |}.

Definition empty : State := {| notes := []; loading := false; error := "" |}.

(** A contract that answers [getNotesList] with the three arrays. *)
Definition lists (ids : list Z) (titles : list string) (timestamps : list Z)
  : Backend :=
  {| getSigner := Resolved tt;
     getNotesList := Resolved (ids, titles, timestamps) |}.

(** Two notes written in the same second, in the order of their ids. *)
Definition same_second : Backend :=
  lists [1; 2]%Z ["first"; "second"] [1700000000; 1700000000]%Z.

Definition three_notes : Backend :=
  lists [1; 2; 3]%Z ["a"; ""; "c"] [1700000000; 1700000500; 1700000200]%Z.

End List.

End Fixtures.

(* ------------------------------------------------------------------ *)
(** ** More concrete wallets, backends and states *)

Module MoreFixtures.

Module Wallets.
Import ConnectWallet Fixtures.Wallets.

Definition unrecognized_chain : Error :=
  {| code := Some 4902%Z; message := Some "Unrecognized chain ID";
     error_message := None; receipt := None; transaction_hash := None |}.

(** A wallet that does not know the network yet and accepts to add it. *)
Definition unknown_network : Wallet :=
  {| ethereum := true;
     switchEthereumChain := Rejected unrecognized_chain;
     addEthereumChain := Resolved tt;
     requestAccounts := Resolved [alice];
     signMessage := fun msg => Resolved ("0xsigned:" ++ msg)%string;
     verifyMessage := fun _ _ => Resolved Alice;
     now := 1700000000000 |}.

(** A wallet whose user refuses the network switch. *)
Definition refusing_network : Wallet :=
  {| ethereum := true;
     switchEthereumChain :=
       Rejected {| code := Some 4001%Z; message := Some "User rejected the request.";
                   error_message := None; receipt := None;
                   transaction_hash := None |};
     addEthereumChain := Resolved tt;
     requestAccounts := Resolved [alice];
     signMessage := fun msg => Resolved ("0xsigned:" ++ msg)%string;
     verifyMessage := fun _ _ => Resolved Alice;
     now := 1700000000000 |}.

End Wallets.

Module Apps.
Import AppSession Fixtures.Wallets.

(** The application for alice while she edits note 5. *)
Definition alice_editing_5 : AppState :=
  steps [Connected alice (Some ConnectWallet.Web3Provider); Select 5%Z;
         Edit 1700000000000]
        (initial 1699999999000).

(** The application for alice while she views note 5. *)
Definition alice_viewing_5 : AppState :=
  steps [Connected alice (Some ConnectWallet.Web3Provider); Select 5%Z]
        (initial 1699999999000).

End Apps.

Module Loaders.
Import NoteLoader.

Definition not_found_ : Error :=
  {| code := None; message := Some "unreachable";
     error_message := None; receipt := None; transaction_hash := None |}.

(** A backend for which the configured contract address is not an
    address. *)
Definition backend_bad_address : NoteEditor.Backend :=
  {| NoteEditor.getSigner := Resolved {| NoteEditor._isSigner := true |};
     NoteEditor.isAddress := fun _ => false;
     NoteEditor.createNote := fun _ _ => Rejected not_found_;
     NoteEditor.updateNote := fun _ _ _ => Rejected not_found_ |}.

Definition not_found : Error :=
  {| code := None; message := Some "note does not exist";
     error_message := None; receipt := None; transaction_hash := None |}.

(** A contract that holds note 5 only. *)
Definition holds_note_5 : Backend :=
  {| getSigner := Resolved tt;
     getNote := fun id =>
       if (id =? 5)%Z then Resolved ("Groceries", "milk, eggs")
       else Rejected not_found |}.

(** A transaction that is confirmed once and whose second [wait] is
    rejected. *)
Definition confirmed_then_lost : NoteEditor.Tx :=
  {| NoteEditor.hash := "0xabc";
     NoteEditor.wait_first := Resolved Fixtures.Editor.no_events;
     NoteEditor.wait_second := Rejected not_found |}.

(** A confirmed creation whose receipt holds the event decoded with the
    ABI's argument names. *)
Definition created_7_by_abi : NoteEditor.Tx :=
  {| NoteEditor.hash := "0xabc";
     NoteEditor.wait_first := Resolved (Fixtures.Editor.created_by_abi 7);
     NoteEditor.wait_second := Resolved (Fixtures.Editor.created_by_abi 7) |}.

(** A backend that answers every dispatch with [tx]. *)
Definition backend_with (tx : NoteEditor.Tx) : NoteEditor.Backend :=
  {| NoteEditor.getSigner := Resolved {| NoteEditor._isSigner := true |};
     NoteEditor.isAddress := fun _ => true;
     NoteEditor.createNote := fun _ _ => Resolved tx;
     NoteEditor.updateNote := fun _ _ _ => Resolved tx |}.

End Loaders.

End MoreFixtures.

(* ================================================================== *)
(** * Properties *)

(** ** Strings *)

Lemma trimStart_all_space (s : string) :
  all_space s = true -> trimStart s = "".
Proof.
  induction s as [|c r IH]; simpl; [reflexivity|].
  destruct (is_space c); simpl; [exact IH | discriminate].
Qed.

Lemma trimStart_keeps_ink (s : string) :
  all_space s = false ->
  exists c r, trimStart s = String c r /\ is_space c = false.
Proof.
  induction s as [|c r IH]; simpl; [discriminate|].
  destruct (is_space c) eqn:Hc; simpl; intros H.
  - apply IH, H.
  - exists c, r. split; [reflexivity | exact Hc].
Qed.

Lemma trimEnd_keeps_ink (c : ascii) (r : string) :
  is_space c = false -> truthy (trimEnd (String c r)) = true.
Proof.
  intros Hc. simpl. destruct (trimEnd r); [rewrite Hc|]; reflexivity.
Qed.

(** [!title.trim()] holds exactly for a title that is empty or made of
    white space only. *)
Lemma trim_truthy (s : string) : truthy (trim s) = negb (all_space s).
Proof.
  unfold trim. destruct (all_space s) eqn:Hs.
  - rewrite (trimStart_all_space s Hs). reflexivity.
  - destruct (trimStart_keeps_ink s Hs) as (c & r & -> & Hc).
    apply trimEnd_keeps_ink, Hc.
Qed.

(** ** The handler monad *)

Lemma trace_bind {Ev A B} (m : M Ev A) (f : A -> M Ev B) :
  trace (bind m f) =
  match result m with
  | Resolved a => trace m ++ trace (f a)
  | Rejected _ => trace m
  end.
Proof.
  destruct m as [t [a|e]]; simpl; [|reflexivity].
  destruct (f a); reflexivity.
Qed.

Lemma result_bind {Ev A B} (m : M Ev A) (f : A -> M Ev B) :
  result (bind m f) =
  match result m with
  | Resolved a => result (f a)
  | Rejected e => Rejected e
  end.
Proof.
  destruct m as [t [a|e]]; simpl; [|reflexivity].
  destruct (f a); reflexivity.
Qed.

Lemma trace_try_catch {Ev A} (m : M Ev A) (h : Error -> M Ev A) :
  trace (try_catch m h) =
  match result m with
  | Resolved _ => trace m
  | Rejected e => trace m ++ trace (h e)
  end.
Proof.
  destruct m as [t [a|e]]; simpl; [reflexivity|].
  destruct (h e); reflexivity.
Qed.

Lemma result_try_catch {Ev A} (m : M Ev A) (h : Error -> M Ev A) :
  result (try_catch m h) =
  match result m with
  | Resolved a => Resolved a
  | Rejected e => result (h e)
  end.
Proof.
  destruct m as [t [a|e]]; simpl; [reflexivity|].
  destruct (h e); reflexivity.
Qed.

Lemma trace_finally {Ev A} (m : M Ev A) (f : M Ev unit) :
  trace (finally m f) = trace m ++ trace f.
Proof. destruct m, f; reflexivity. Qed.

Lemma trace_emit {Ev} (ev : Ev) : trace (emit ev) = [ev].
Proof. reflexivity. Qed.

Lemma result_emit {Ev} (ev : Ev) : result (emit ev) = Resolved tt.
Proof. reflexivity. Qed.

Lemma trace_await {Ev A} (ev : Ev) (o : Outcome A) : trace (await ev o) = [ev].
Proof. reflexivity. Qed.

Lemma result_await {Ev A} (ev : Ev) (o : Outcome A) : result (await ev o) = o.
Proof. reflexivity. Qed.

Ltac handler_simpl :=
  repeat (progress (rewrite ?trace_bind, ?result_bind, ?trace_try_catch,
                      ?result_try_catch, ?trace_finally, ?trace_emit,
                      ?result_emit, ?trace_await, ?result_await;
                    cbn [trace result fst snd ret throw])).

(** A property of every emitted event is kept by each way of combining
    handlers. *)
Section EveryEvent.
Context {Ev : Type} (P : Ev -> bool).

Definition every {A} (m : M Ev A) : Prop := forallb P (trace m) = true.

Lemma every_ret {A} (a : A) : every (ret a).
Proof. reflexivity. Qed.

Lemma every_throw {A} (e : Error) : every (@throw Ev A e).
Proof. reflexivity. Qed.

Lemma every_call {A} (o : Outcome A) : every (@call Ev A o).
Proof. reflexivity. Qed.

Lemma every_emit (ev : Ev) : P ev = true -> every (emit ev).
Proof. intros H. unfold every. cbn. rewrite H. reflexivity. Qed.

Lemma every_await {A} (ev : Ev) (o : Outcome A) :
  P ev = true -> every (await ev o).
Proof. intros H. unfold every. cbn. rewrite H. reflexivity. Qed.

Lemma every_bind {A B} (m : M Ev A) (f : A -> M Ev B) :
  every m -> (forall a, every (f a)) -> every (bind m f).
Proof.
  unfold every. intros Hm Hf. rewrite trace_bind.
  destruct (result m) as [a|e]; [|exact Hm].
  rewrite forallb_app, Hm, (Hf a). reflexivity.
Qed.

Lemma every_try_catch {A} (m : M Ev A) (h : Error -> M Ev A) :
  every m -> (forall e, every (h e)) -> every (try_catch m h).
Proof.
  unfold every. intros Hm Hh. rewrite trace_try_catch.
  destruct (result m) as [a|e]; [exact Hm|].
  rewrite forallb_app, Hm, (Hh e). reflexivity.
Qed.

Lemma every_finally {A} (m : M Ev A) (f : M Ev unit) :
  every m -> every f -> every (finally m f).
Proof.
  unfold every. intros Hm Hf. rewrite trace_finally, forallb_app, Hm, Hf.
  reflexivity.
Qed.

End EveryEvent.

(** Walks through a handler built from the combinators. *)
Ltac every_step :=
  first
    [ apply every_ret | apply every_throw | apply every_call
    | apply every_emit; reflexivity
    | apply every_await; reflexivity
    | apply every_bind; [|intros ?]
    | apply every_try_catch; [|intros ?]
    | apply every_finally
    | match goal with
      | |- every _ (if ?c then _ else _) => destruct c
      | |- every _ (match ?l with [] => _ | _ :: _ => _ end) => destruct l
      end ].


(** ** NoteEditor: validation *)

Module EditorFacts.
Import NoteEditor Fixtures.Editor.

(** C10: a save submission whose title is empty or white space only sets
    the title error and returns: that setter is the only thing the handler
    does, so no request reaches the provider or the contract, no [onSaved]
    is scheduled, and title, content and editing mode are as before. *)
Theorem blank_title_returns_before_any_call (props : Props) (b : Backend)
    (st : State) :
  readOnly props = false ->
  all_space (title st) = true ->
  let tr := trace (handleSubmit props b st) in
  tr = [SetError "Please enter a title for your note"] /\
  filter is_request tr = [] /\
  scheduled tr = [] /\
  error (run st tr) = "Please enter a title for your note" /\
  title (run st tr) = title st /\
  content (run st tr) = content st /\
  isNewNote (run st tr) = isNewNote st /\
  saving (run st tr) = saving st.
Proof.
  intros Hro Hblank tr. subst tr.
  unfold handleSubmit. rewrite Hro, trim_truthy, Hblank. cbn.
  repeat split; reflexivity.
Qed.

Lemma blank_title_returns_before_any_call_witness :
  trace (handleSubmit (connected None) (backend_ok no_events)
           (draft "  " "body" true))
  = [SetError "Please enter a title for your note"].
Proof.
  apply (blank_title_returns_before_any_call (connected None)
           (backend_ok no_events) (draft "  " "body" true));
    reflexivity.
Defined.

(** C4, as stated, fails: with no account and a blank title the handler
    reports the title error, not the unauthenticated one. *)
Lemma unauthenticated_blank_title_reports_title_error :
  unauthenticated (disconnected None) = true /\
  error (run (draft " " "body" true)
           (trace (handleSubmit (disconnected None) (backend_ok no_events)
                     (draft " " "body" true))))
  <> "Please connect your wallet first".
Proof. split; [reflexivity | discriminate]. Qed.

(** C4, amended: a submission with a title that is not blank, made while
    the provider, the account or the contract address is missing, sets the
    unauthenticated error and returns; nothing is dispatched, no request is
    sent at all and no [onSaved] is scheduled. *)
Theorem unauthenticated_submit_not_dispatched (props : Props) (b : Backend)
    (st : State) :
  readOnly props = false ->
  all_space (title st) = false ->
  unauthenticated props = true ->
  let tr := trace (handleSubmit props b st) in
  tr = [SetError "Please connect your wallet first"] /\
  filter is_dispatch tr = [] /\
  filter is_request tr = [] /\
  scheduled tr = [] /\
  error (run st tr) = "Please connect your wallet first".
Proof.
  intros Hro Hink Hun tr. subst tr.
  unfold handleSubmit. rewrite Hro, trim_truthy, Hink, Hun. cbn.
  repeat split; reflexivity.
Qed.

Lemma unauthenticated_submit_not_dispatched_witness :
  trace (handleSubmit (disconnected None) (backend_ok no_events)
           (draft "T" "B" true))
  = [SetError "Please connect your wallet first"].
Proof.
  apply (unauthenticated_submit_not_dispatched (disconnected None)
           (backend_ok no_events) (draft "T" "B" true));
    reflexivity.
Defined.

(** Whatever the title and the session, a submission that does not pass
    the two checks dispatches nothing. *)
Lemma rejected_submit_dispatches_nothing (props : Props) (b : Backend)
    (st : State) :
  all_space (title st) = true \/ unauthenticated props = true ->
  filter is_dispatch (trace (handleSubmit props b st)) = [].
Proof.
  intros H. unfold handleSubmit.
  destruct (readOnly props); [reflexivity|].
  rewrite trim_truthy.
  destruct (all_space (title st)); [reflexivity|].
  destruct H as [H|H]; [discriminate|]. rewrite H. reflexivity.
Qed.


(** ** NoteEditor: the save itself *)

(** The setters of [handleSubmit] never touch the form fields. *)
Lemma run_keeps_form (tr : list Event) (st : State) :
  title (run st tr) = title st /\
  content (run st tr) = content st /\
  isNewNote (run st tr) = isNewNote st /\
  loading (run st tr) = loading st.
Proof.
  revert st. induction tr as [|ev tr IH]; intros st; [repeat split|].
  change (run st (ev :: tr)) with (run (apply st ev) tr).
  destruct (IH (apply st ev)) as (Ht & Hc & Hn & Hl).
  rewrite Ht, Hc, Hn, Hl. destruct ev; repeat split.
Qed.

Lemma scheduled_app (t1 t2 : list Event) :
  scheduled (t1 ++ t2) = scheduled t1 ++ scheduled t2.
Proof.
  induction t1 as [|ev t1 IH]; [reflexivity|].
  destruct ev; simpl; rewrite ?IH, ?app_assoc; reflexivity.
Qed.

Lemma extractNoteId_silent (r : TxReceipt) :
  trace (@extractNoteId Event r) = [].
Proof.
  unfold extractNoteId.
  destruct (events r) as [[|e es]|]; try reflexivity.
  destruct (find isNoteCreated (e :: es)) as [ev|]; try reflexivity.
  destruct (args ev) as [o|]; try reflexivity.
  destruct (lookup "noteId" o) as [a|]; try reflexivity.
  destruct (arg_truthy a); try reflexivity.
  destruct a as [v|s]; cbn; [|reflexivity].
  destruct (Z.abs v <=? MAX_SAFE_INTEGER)%Z; reflexivity.
Qed.

(** Id recovery is best effort: it always yields a value, and it
    schedules nothing. *)
Lemma savedNoteIdOf_total (props : Props) (st : State) (tx : Tx) :
  (exists id, result (savedNoteIdOf props st tx) = Resolved id) /\
  scheduled (trace (savedNoteIdOf props st tx)) = [].
Proof.
  unfold savedNoteIdOf.
  destruct (isNewNote st && truthy (hash tx)).
  - handler_simpl.
    destruct (wait_second tx) as [r|e]; handler_simpl.
    + rewrite extractNoteId_silent.
      destruct (result (extractNoteId r)) as [id|e']; cbn; eauto.
    + cbn. eauto.
  - cbn. eauto.
Qed.

(** The inner [try] either throws, having scheduled nothing, or ends
    normally with its single timer. *)
Lemma dispatchAndConfirm_cases (props : Props) (b : Backend) (st : State) :
  (exists e, result (dispatchAndConfirm props b st) = Rejected e /\
             scheduled (trace (dispatchAndConfirm props b st)) = []) \/
  (result (dispatchAndConfirm props b st) = Resolved tt /\
   exists id, scheduled (trace (dispatchAndConfirm props b st)) =
              if onSaved props then [OnSaved id] else []).
Proof.
  unfold dispatchAndConfirm.
  set (dispatch := if isNewNote st then _ else _).
  assert (Hd : scheduled (trace dispatch) = []) by (subst dispatch; destruct (isNewNote st); reflexivity).
  destruct (result dispatch) as [tx|e] eqn:Hr.
  2:{ left. exists e. handler_simpl. rewrite Hr. auto. }
  destruct (wait_first tx) as [r1|e] eqn:Hw.
  2:{ left. exists e. handler_simpl. rewrite Hr. handler_simpl. rewrite Hw.
      rewrite scheduled_app, Hd. auto. }
  destruct (savedNoteIdOf_total props st tx) as [[id Hid] Hs].
  right. handler_simpl. rewrite Hr. handler_simpl. rewrite Hw.
  handler_simpl. rewrite Hid. handler_simpl. split; [reflexivity|].
  exists id. rewrite !scheduled_app, Hd, Hs. cbn.
  rewrite app_nil_r. reflexivity.
Qed.

(** A save that throws has scheduled no [onSaved]. *)
Lemma failed_save_schedules_nothing (props : Props) (b : Backend)
    (st : State) (e : Error) :
  result (save props b st) = Rejected e ->
  scheduled (trace (save props b st)) = [].
Proof.
  unfold save. handler_simpl.
  destruct (getSigner b) as [signer|e0]; [|reflexivity].
  destruct (isAddress b (contractAddress props)); cbn [negb]; [|reflexivity].
  destruct (_isSigner signer); cbn [negb]; [|reflexivity].
  handler_simpl.
  destruct (dispatchAndConfirm_cases props b st) as [(e1 & Hr & Hs)|(Hr & _)];
    rewrite Hr; cbn.
  - intros _. rewrite app_nil_r. exact Hs.
  - discriminate.
Qed.


Lemma editor_run_app (st : State) (t1 t2 : list Event) :
  run st (t1 ++ t2) = run (run st t1) t2.
Proof. apply fold_left_app. Qed.

(** What [handleSubmit] does once the checks have passed. *)
Lemma handleSubmit_checked (props : Props) (b : Backend) (st : State) :
  readOnly props = false ->
  all_space (title st) = false ->
  unauthenticated props = false ->
  trace (handleSubmit props b st) =
  [SetSaving true; SetError ""; SetSuccess ""] ++
  trace (save props b st) ++
  match result (save props b st) with
  | Resolved _ => []
  | Rejected e => [SetError (errorMessage e)]
  end ++ [SetSaving false].
Proof.
  intros Hro Hink Hauth. unfold handleSubmit.
  rewrite Hro, trim_truthy, Hink, Hauth. cbn [negb].
  handler_simpl. destruct (result (save props b st)); cbn;
    rewrite <- ?app_assoc; reflexivity.
Qed.

(** C8: a save attempt that fails, by whatever error is thrown in the
    handler's [try], never calls [onSaved]: no timer is scheduled, so the
    view state of the application is the one before the submission (still
    creating, or editing the same note), and the form keeps its title,
    content and mode. *)
Theorem failed_save_stays_in_place (props : Props) (b : Backend) (st : State)
    (e : Error) :
  result (save props b st) = Rejected e ->
  let tr := trace (handleSubmit props b st) in
  scheduled tr = [] /\
  (forall ns, App.deliver (scheduled tr) ns = ns) /\
  (forall account ns,
     App.view account (App.deliver (scheduled tr) ns) = App.view account ns) /\
  title (run st tr) = title st /\
  content (run st tr) = content st /\
  isNewNote (run st tr) = isNewNote st.
Proof.
  intros Hfail tr.
  assert (Hs : scheduled tr = []).
  { subst tr. unfold handleSubmit.
    destruct (readOnly props); [reflexivity|].
    destruct (negb (truthy (trim (title st)))); [reflexivity|].
    destruct (unauthenticated props); [reflexivity|].
    handler_simpl. rewrite Hfail. cbn [trace outerCatch emit fst].
    rewrite !scheduled_app, (failed_save_schedules_nothing _ _ _ _ Hfail).
    reflexivity. }
  rewrite Hs. destruct (run_keeps_form tr st) as (Ht & Hc & Hn & _).
  repeat split; auto.
Qed.

(** A rejected dispatch and a failed confirmation are such failures. *)
Lemma dispatch_rejected_fails_save (props : Props) (b : Backend) (st : State)
    (signer : Signer) (e : Error) :
  getSigner b = Resolved signer -> _isSigner signer = true ->
  isAddress b (contractAddress props) = true ->
  (if isNewNote st then createNote b (title st) (content st)
   else updateNote b (noteId props) (title st) (content st)) = Rejected e ->
  result (save props b st) = Rejected (innerCatch e).
Proof.
  intros Hg Hs Ha Hd. unfold save, dispatchAndConfirm.
  handler_simpl. rewrite Hg, Ha, Hs. cbn [negb]. handler_simpl.
  destruct (isNewNote st); handler_simpl; rewrite Hd; reflexivity.
Qed.

Lemma failed_confirmation_fails_save (props : Props) (b : Backend)
    (st : State) (signer : Signer) (tx : Tx) (e : Error) :
  getSigner b = Resolved signer -> _isSigner signer = true ->
  isAddress b (contractAddress props) = true ->
  (if isNewNote st then createNote b (title st) (content st)
   else updateNote b (noteId props) (title st) (content st)) = Resolved tx ->
  wait_first tx = Rejected e ->
  result (save props b st) = Rejected (innerCatch e).
Proof.
  intros Hg Hs Ha Hd Hw. unfold save, dispatchAndConfirm.
  handler_simpl. rewrite Hg, Ha, Hs. cbn [negb]. handler_simpl.
  destruct (isNewNote st); handler_simpl; rewrite Hd; handler_simpl;
    rewrite Hw; reflexivity.
Qed.

Lemma failed_save_stays_in_place_witness :
  scheduled (trace (handleSubmit (connected (Some 5%Z))
                      (backend_reverted reverted_unregistered)
                      (draft "T" "B" false))) = [].
Proof.
  apply (failed_save_stays_in_place (connected (Some 5%Z))
           (backend_reverted reverted_unregistered) (draft "T" "B" false)
           (innerCatch reverted_unregistered)).
  reflexivity.
Defined.


(** ** NoteEditor: how a failure is reported *)

Lemma reports_app (t1 t2 : list Event) :
  filter is_failure_report (t1 ++ t2) =
  filter is_failure_report t1 ++ filter is_failure_report t2.
Proof. apply filter_app. Qed.

Lemma savedNoteIdOf_reports_nothing (props : Props) (st : State) (tx : Tx) :
  filter is_failure_report (trace (savedNoteIdOf props st tx)) = [].
Proof.
  unfold savedNoteIdOf.
  destruct (isNewNote st && truthy (hash tx)); [|reflexivity].
  handler_simpl.
  destruct (wait_second tx) as [r|e]; handler_simpl; [|reflexivity].
  rewrite extractNoteId_silent.
  destruct (result (extractNoteId r)); reflexivity.
Qed.

Lemma dispatchAndConfirm_reports_nothing (props : Props) (b : Backend)
    (st : State) :
  filter is_failure_report (trace (dispatchAndConfirm props b st)) = [].
Proof.
  unfold dispatchAndConfirm.
  set (dispatch := if isNewNote st then _ else _).
  assert (Hd : filter is_failure_report (trace dispatch) = [])
    by (subst dispatch; destruct (isNewNote st); reflexivity).
  handler_simpl.
  destruct (result dispatch) as [tx|e]; [|exact Hd].
  handler_simpl.
  destruct (wait_first tx) as [r1|e]; [|rewrite reports_app, Hd; reflexivity].
  handler_simpl.
  destruct (savedNoteIdOf_total props st tx) as [[id Hid] _].
  rewrite Hid. handler_simpl.
  rewrite !reports_app, Hd, savedNoteIdOf_reports_nothing.
  destruct (isNewNote st); reflexivity.
Qed.

(** The [try] itself never calls [setError]: only the outer [catch] does. *)
Lemma save_reports_nothing (props : Props) (b : Backend) (st : State) :
  filter is_failure_report (trace (save props b st)) = [].
Proof.
  unfold save. handler_simpl.
  destruct (getSigner b) as [signer|e0]; [|reflexivity].
  destruct (isAddress b (contractAddress props)); cbn [negb]; [|reflexivity].
  destruct (_isSigner signer); cbn [negb]; [|reflexivity].
  handler_simpl.
  destruct (result (dispatchAndConfirm props b st)); cbn;
    rewrite ?reports_app, dispatchAndConfirm_reports_nothing; reflexivity.
Qed.

Lemma errorMessage_truthy (e : Error) : truthy (errorMessage e) = true.
Proof. reflexivity. Qed.

(** A failed save attaches exactly one message, the one the outer
    [catch] builds from the error that reached it. *)
Lemma failed_save_reports_once (props : Props) (b : Backend) (st : State)
    (e : Error) :
  readOnly props = false ->
  all_space (title st) = false ->
  unauthenticated props = false ->
  result (save props b st) = Rejected e ->
  filter is_failure_report (trace (handleSubmit props b st)) =
    [SetError (errorMessage e)] /\
  error (run st (trace (handleSubmit props b st))) = errorMessage e /\
  saving (run st (trace (handleSubmit props b st))) = false.
Proof.
  intros Hro Hink Hauth Hfail.
  rewrite (handleSubmit_checked _ _ _ Hro Hink Hauth), Hfail.
  split; [|split].
  - rewrite !reports_app, save_reports_nothing. reflexivity.
  - rewrite !editor_run_app. reflexivity.
  - rewrite !editor_run_app. reflexivity.
Qed.

(** The order in which the two [catch] blocks look at an error thrown by
    the dispatch or the confirmation. *)
Lemma failure_precedence (e : Error) :
  (nested_message e = true ->
   errorMessage (innerCatch e) =
   errorMessage (new_Error (or_empty (error_message e)))) /\
  (nested_message e = false ->
   rejection_signal e = true ->
   errorMessage (innerCatch e) =
   report "Transaction was rejected in your wallet.") /\
  (nested_message e = false ->
   rejection_signal e = false ->
   message_includes (message e) "note does not exist" = true ->
   errorMessage (innerCatch e) =
   report "Note does not exist or you don't have permission to edit it.") /\
  (nested_message e = false ->
   rejection_signal e = false ->
   message_includes (message e) "note does not exist" = false ->
   message_includes (message e) "registered" = true ->
   errorMessage (innerCatch e) =
   report "Your wallet isn't correctly registered with the contract.") /\
  (nested_message e = false ->
   rejection_signal e = false ->
   message_includes (message e) "note does not exist" = false ->
   message_includes (message e) "registered" = false ->
   errorMessage (innerCatch e) =
   report (if zero_status_signal e then revertedText (transactionHash e)
           else patternText e)) /\
  (truthy (or_empty (message e)) = false ->
   patternText e = "Unknown error occurred. Check browser console for details.").
Proof.
  unfold rejection_signal, zero_status_signal, innerCatch.
  repeat split.
  - intros ->. reflexivity.
  - intros -> ->. reflexivity.
  - intros -> -> ->. reflexivity.
  - intros -> -> -> ->. reflexivity.
  - intros -> -> -> ->. unfold errorMessage.
    destruct (receiptStatus e) as [[| |]|]; reflexivity.
  - intros H. unfold patternText, message_includes.
    destruct (message e) as [m|]; cbn in H |- *; rewrite ?H; reflexivity.
Qed.


(** C7, as stated, fails: an error with no rejection signal, a receipt of
    status 0 and a message matching the pattern [registered] is reported
    by the message pattern, not as reverted with status 0. *)
Lemma zero_status_loses_to_inner_pattern :
  rejection_signal reverted_unregistered = false /\
  zero_status_signal reverted_unregistered = true /\
  error (run (draft "T" "B" false)
           (trace (handleSubmit (connected (Some 5%Z))
                     (backend_reverted reverted_unregistered)
                     (draft "T" "B" false))))
  = report "Your wallet isn't correctly registered with the contract." /\
  report "Your wallet isn't correctly registered with the contract."
  <> report (revertedText (transactionHash reverted_unregistered)).
Proof. repeat split; try reflexivity. discriminate. Qed.

(** A rejection whose error nests a provider error is reported by the
    nested message, not as a rejection. *)
Example nested_message_wins_over_rejection :
  rejection_signal rejected_with_nested_error = true /\
  error (run (draft "T" "B" true)
           (trace (handleSubmit (connected None)
                     (backend_dispatch_rejected rejected_with_nested_error)
                     (draft "T" "B" true))))
  = report "Internal JSON-RPC error.".
Proof. split; reflexivity. Qed.

(** C7, amended: a save that fails in the dispatch or the confirmation
    attaches exactly one message, chosen in this order: the nested provider
    message if the error has one (classified by the outer patterns alone);
    else user rejection; else the patterns [note does not exist] and
    [registered]; else reverted with receipt status 0; else the remaining
    message patterns and the raw message; else unknown. *)
Theorem save_failure_reported_by_precedence (props : Props) (b : Backend)
    (st : State) (signer : Signer) (innerErr : Error) :
  readOnly props = false ->
  all_space (title st) = false ->
  unauthenticated props = false ->
  getSigner b = Resolved signer ->
  _isSigner signer = true ->
  isAddress b (contractAddress props) = true ->
  result (dispatchAndConfirm props b st) = Rejected innerErr ->
  let tr := trace (handleSubmit props b st) in
  let reported := error (run st tr) in
  filter is_failure_report tr = [SetError reported] /\
  (nested_message innerErr = true ->
   reported = errorMessage (new_Error (or_empty (error_message innerErr)))) /\
  (nested_message innerErr = false ->
   rejection_signal innerErr = true ->
   reported = report "Transaction was rejected in your wallet.") /\
  (nested_message innerErr = false ->
   rejection_signal innerErr = false ->
   message_includes (message innerErr) "note does not exist" = true ->
   reported = report "Note does not exist or you don't have permission to edit it.") /\
  (nested_message innerErr = false ->
   rejection_signal innerErr = false ->
   message_includes (message innerErr) "note does not exist" = false ->
   message_includes (message innerErr) "registered" = true ->
   reported = report "Your wallet isn't correctly registered with the contract.") /\
  (nested_message innerErr = false ->
   rejection_signal innerErr = false ->
   message_includes (message innerErr) "note does not exist" = false ->
   message_includes (message innerErr) "registered" = false ->
   reported = report (if zero_status_signal innerErr
                      then revertedText (transactionHash innerErr)
                      else patternText innerErr)) /\
  (truthy (or_empty (message innerErr)) = false ->
   patternText innerErr =
   "Unknown error occurred. Check browser console for details.").
Proof.
  intros Hro Hink Hauth Hg Hs Ha Hfail tr reported.
  assert (Hsave : result (save props b st) = Rejected (innerCatch innerErr)).
  { unfold save. handler_simpl. rewrite Hg, Ha, Hs. cbn [negb].
    handler_simpl. rewrite Hfail. reflexivity. }
  destruct (failed_save_reports_once _ _ _ _ Hro Hink Hauth Hsave)
    as (Honce & Herr & _).
  subst reported tr. rewrite Herr.
  split; [exact Honce|]. apply failure_precedence.
Qed.

Lemma save_failure_reported_by_precedence_witness :
  filter is_failure_report
    (trace (handleSubmit (connected None)
              (backend_dispatch_rejected user_rejected) (draft "T" "B" true)))
  = [SetError (report "Transaction was rejected in your wallet.")].
Proof.
  apply (save_failure_reported_by_precedence (connected None)
           (backend_dispatch_rejected user_rejected) (draft "T" "B" true)
           {| _isSigner := true |} user_rejected);
    reflexivity.
Defined.


(** ** A successful save and the view state *)

(** Id recovery sends at most the second [tx.wait()]. *)
Lemma savedNoteIdOf_waits (props : Props) (st : State) (tx : Tx) :
  trace (savedNoteIdOf props st tx) = [] \/
  trace (savedNoteIdOf props st tx) = [Wait].
Proof.
  unfold savedNoteIdOf.
  destruct (isNewNote st && truthy (hash tx)); [|left; reflexivity].
  right. handler_simpl.
  destruct (wait_second tx) as [r|e]; handler_simpl; [|reflexivity].
  rewrite extractNoteId_silent.
  destruct (result (extractNoteId r)); reflexivity.
Qed.

(** A confirmed creation is a success whether or not an id is recovered:
    the success message is set, no error is, and one [onSaved] is scheduled
    with what the id recovery gave. *)
Lemma confirmed_create_is_a_success (props : Props) (b : Backend) (st : State)
    (signer : Signer) (tx : Tx) (r : TxReceipt) (id : option Z) :
  readOnly props = false ->
  all_space (title st) = false ->
  unauthenticated props = false ->
  onSaved props = true ->
  isNewNote st = true ->
  getSigner b = Resolved signer ->
  _isSigner signer = true ->
  isAddress b (contractAddress props) = true ->
  createNote b (title st) (content st) = Resolved tx ->
  wait_first tx = Resolved r ->
  result (savedNoteIdOf props st tx) = Resolved id ->
  let tr := trace (handleSubmit props b st) in
  scheduled tr = [OnSaved id] /\
  filter is_failure_report tr = [] /\
  error (run st tr) = "" /\
  success (run st tr) = "Note created successfully!".
Proof.
  intros Hro Hink Hauth Hcb Hnew Hg Hs Ha Hc Hw Hid tr. subst tr.
  rewrite (handleSubmit_checked _ _ _ Hro Hink Hauth).
  assert (Hd : trace (dispatchAndConfirm props b st) =
               [CreateNote (title st) (content st) 500000 (account props);
                Wait; SetSuccess "Note created successfully!"] ++
               trace (savedNoteIdOf props st tx) ++
               [SetTimeout [OnSaved id] 2000] /\
               result (dispatchAndConfirm props b st) = Resolved tt).
  { unfold dispatchAndConfirm. rewrite Hnew, Hcb. handler_simpl.
    rewrite Hc. handler_simpl. rewrite Hw. handler_simpl. rewrite Hid.
    handler_simpl. split; reflexivity. }
  destruct Hd as [Hd Hr].
  assert (Hsave : trace (save props b st) =
                  GetSigner :: trace (dispatchAndConfirm props b st) /\
                  result (save props b st) = Resolved tt).
  { unfold save. handler_simpl. rewrite Hg, Ha, Hs. cbn [negb].
    handler_simpl. rewrite Hr. split; reflexivity. }
  destruct Hsave as [-> ->]. rewrite Hd.
  destruct (savedNoteIdOf_waits props st tx) as [-> | ->];
    repeat split; reflexivity.
Qed.


(** [handleNoteSaved] from the creating state: an id that is neither
    [null] nor 0 is selected and viewed; otherwise nothing is selected. *)
Lemma saved_from_creating (account : string) (ns : App.NoteState)
    (id : option Z) :
  App.view account ns = App.Creating ->
  App.view account (App.handleNoteSaved id ns) =
  match id with
  | Some v => if (v =? 0)%Z then App.Browsing else App.Viewing v
  | None => App.Browsing
  end.
Proof.
  unfold App.view, App.handleNoteSaved, App.or_else. cbn.
  destruct (truthy account); cbn; [|discriminate].
  destruct (App.isEditing ns); destruct (App.selectedNoteId ns);
    try discriminate.
  intros _. destruct id as [v|]; [|reflexivity].
  destruct (v =? 0)%Z; reflexivity.
Qed.

(** [handleNoteSaved] from the editing state returns to viewing the same
    note. *)
Lemma saved_from_editing (account : string) (ns : App.NoteState) (id : Z) :
  App.view account ns = App.Editing id ->
  App.view account (App.handleNoteSaved (Some id) ns) = App.Viewing id.
Proof.
  unfold App.view, App.handleNoteSaved, App.or_else. cbn.
  destruct (truthy account); cbn; [|discriminate].
  destruct (App.isEditing ns); destruct (App.selectedNoteId ns) as [s|];
    try discriminate.
  intros [= ->]. destruct (id =? 0)%Z; reflexivity.
Qed.

(** A confirmed creation seen from the application: the view after the
    timer has fired. *)
Lemma confirmed_create_view (props : Props) (b : Backend) (st : State)
    (signer : Signer) (tx : Tx) (r : TxReceipt) (id : option Z)
    (account : string) (ns : App.NoteState) :
  readOnly props = false ->
  all_space (title st) = false ->
  unauthenticated props = false ->
  onSaved props = true ->
  isNewNote st = true ->
  getSigner b = Resolved signer ->
  _isSigner signer = true ->
  isAddress b (contractAddress props) = true ->
  createNote b (title st) (content st) = Resolved tx ->
  wait_first tx = Resolved r ->
  result (savedNoteIdOf props st tx) = Resolved id ->
  App.view account ns = App.Creating ->
  App.view account
    (App.deliver (scheduled (trace (handleSubmit props b st))) ns) =
  match id with
  | Some v => if (v =? 0)%Z then App.Browsing else App.Viewing v
  | None => App.Browsing
  end.
Proof.
  intros Hro Hink Hauth Hcb Hnew Hg Hs Ha Hc Hw Hid Hview.
  destruct (confirmed_create_is_a_success props b st signer tx r id
              Hro Hink Hauth Hcb Hnew Hg Hs Ha Hc Hw Hid) as [-> _].
  cbn. apply saved_from_creating, Hview.
Qed.

(** A receipt with no events, and one whose event is decoded with the
    argument names of the repository's ABI, recover no id; the save is
    still a success and the application goes to browsing. *)
Example create_without_recoverable_id :
  let tr := trace (handleSubmit (connected None) (backend_ok no_events)
                     (draft "T" "B" true)) in
  let tr' := trace (handleSubmit (connected None)
                      (backend_ok (created_by_abi 7))
                      (draft "T" "B" true)) in
  scheduled tr = [OnSaved None] /\
  scheduled tr' = [OnSaved None] /\
  error (run (draft "T" "B" true) tr) = "" /\
  success (run (draft "T" "B" true) tr) = "Note created successfully!" /\
  App.view alice (App.deliver (scheduled tr) creating) = App.Browsing.
Proof. repeat split. Qed.

Example create_with_recovered_id :
  let tr := trace (handleSubmit (connected None) (backend_ok (created 7))
                     (draft "T" "B" true)) in
  scheduled tr = [OnSaved (Some 7%Z)] /\
  App.view alice (App.deliver (scheduled tr) creating) = App.Viewing 7.
Proof. repeat split. Qed.

(** A confirmed update returns to viewing the edited note. *)
Example update_returns_to_viewing :
  let tr := trace (handleSubmit (connected (Some 5%Z)) (backend_ok no_events)
                     (draft "T" "B" false)) in
  App.view alice (editing 5) = App.Editing 5 /\
  scheduled tr = [OnSaved (Some 5%Z)] /\
  success (run (draft "T" "B" false) tr) = "Note updated successfully!" /\
  App.view alice (App.deliver (scheduled tr) (editing 5)) = App.Viewing 5.
Proof. repeat split. Qed.


End EditorFacts.

(** ** ContractDiagnostics *)

Module DiagnosticsFacts.
Import ContractDiagnostics Fixtures.Diagnostics.

(** Once the contract object is built, the three calls are all sent, in
    order, whatever each of them answers. *)
Lemma probes_all_sent (c : Chain) :
  filter (fun ev => match ev with
                    | CallGetEncryptionContractAddress _ | CallEncryptNote _ _
                    | CallGetNoteCount _ => true
                    | _ => false
                    end) (trace (probes c)) =
  [CallGetEncryptionContractAddress 100000;
   CallEncryptNote "Test content" 150000;
   CallGetNoteCount 100000] /\
  result (probes c) = Resolved tt.
Proof.
  unfold probes.
  destruct (getEncryptionContractAddress c), (encryptNote c), (getNoteCount c);
    split; reflexivity.
Qed.

(** The encryption and note-count slots depend on their own call only. *)
Lemma slots_of_a_connected_run (c : Chain) :
  connect c = Resolved tt ->
  let r := report (trace (runDiagnostics true true c)) in
  valid (contract r) = valid (slot_of "" (getEncryptionContractAddress c)) /\
  encryption r = slot_of "Failed to encrypt test data: " (encryptNote c) /\
  noteCreation r = slot_of "Failed to check note count: " (getNoteCount c).
Proof.
  intros Hc. unfold runDiagnostics, probes. rewrite Hc.
  destruct (isAddress c), (getEncryptionContractAddress c), (encryptNote c),
    (getNoteCount c); repeat split.
Qed.

(** C9: when the trivial view call of check 2 fails, the capability check
    and the count read still run, and each of the three slots reports its
    own outcome: the contract slot fails with the message of the view call,
    the two others pass or fail with the message of their own call. *)
Theorem view_failure_does_not_stop_the_other_checks (c : Chain)
    (viewErr : Error) (prev : DiagnosticState) :
  connect c = Resolved tt ->
  getEncryptionContractAddress c = Rejected viewErr ->
  let tr := trace (runDiagnostics true true c) in
  let r := results (after prev tr) in
  ran Encryption tr = true /\
  ran NoteCreation tr = true /\
  contract r = slot_of "Contract exists but view function failed: "
                 (getEncryptionContractAddress c) /\
  encryption r = slot_of "Failed to encrypt test data: " (encryptNote c) /\
  noteCreation r = slot_of "Failed to check note count: " (getNoteCount c) /\
  completed (after prev tr) = true /\
  running (after prev tr) = false.
Proof.
  intros Hc Hv. unfold runDiagnostics, probes. rewrite Hc, Hv.
  destruct (isAddress c), (encryptNote c), (getNoteCount c); repeat split.
Qed.

Lemma view_failure_does_not_stop_the_other_checks_witness :
  ran Encryption (trace (runDiagnostics true true only_view_fails)) = true.
Proof.
  apply (view_failure_does_not_stop_the_other_checks only_view_fails
           view_reverted
           {| running := false; completed := false; results := fresh |});
    reflexivity.
Defined.

(** The one failure that does skip the calls is that of building the
    contract object: then no call is sent and only the contract slot
    carries a message. *)
Lemma connection_failure_skips_the_calls (c : Chain) (err : Error) :
  connect c = Rejected err ->
  let tr := trace (runDiagnostics true true c) in
  ran Contract tr = false /\ ran Encryption tr = false /\
  ran NoteCreation tr = false /\
  contract (report tr) =
    {| valid := false;
       error := Some ("Failed to connect to contract: " ++
                     message_or_unknown err)%string |}.
Proof.
  intros Hc. unfold runDiagnostics. rewrite Hc.
  destruct (isAddress c); repeat split.
Qed.

End DiagnosticsFacts.

(** ** NotesList: the order of the fetched list *)

Module ListFacts.
Import NotesList Fixtures.List.

Lemma insert_perm (x : Note) (l : list Note) :
  Permutation (insert x l) (x :: l).
Proof.
  induction l as [|y l IH]; cbn; [reflexivity|].
  destruct (compare x y <=? 0)%Z; [reflexivity|].
  rewrite IH. apply perm_swap.
Qed.

Lemma sort_perm (l : list Note) : Permutation (sort l) l.
Proof.
  induction l as [|x l IH]; cbn; [constructor|].
  rewrite insert_perm. constructor. exact IH.
Qed.

Lemma sort_timed (l : list Note) : Forall timed l -> Forall timed (sort l).
Proof.
  intros H. eapply Permutation_Forall; [|exact H].
  symmetry. apply sort_perm.
Qed.

Lemma not_older_trans (a b c : Note) :
  not_older a b -> not_older b c -> not_older a c.
Proof.
  unfold not_older.
  destruct (timestamp a), (timestamp b), (timestamp c); try tauto. lia.
Qed.

Lemma insert_head (x a : Note) (l : list Note) :
  timed x -> timed a ->
  HdRel not_older a l -> not_older a x -> HdRel not_older a (insert x l).
Proof.
  intros Hx Ha Hd Hax. destruct l as [|y l]; cbn; [constructor; exact Hax|].
  destruct (compare x y <=? 0)%Z; constructor;
    [exact Hax | inversion Hd; assumption].
Qed.

Lemma insert_sorted (x : Note) (l : list Note) :
  timed x -> Forall timed l ->
  Sorted not_older l -> Sorted not_older (insert x l).
Proof.
  intros Hx Hl Hs. induction Hs as [|y l Hs IH Hd]; cbn.
  - repeat constructor.
  - inversion Hl as [|? ? Hy Hl']; subst.
    destruct (compare x y <=? 0)%Z eqn:Hc.
    + constructor; [constructor; assumption|].
      constructor. unfold not_older, compare, timed in *.
      destruct (timestamp x), (timestamp y); try congruence.
      apply Z.leb_le in Hc. lia.
    + constructor; [apply IH, Hl'|].
      apply insert_head; try assumption.
      unfold not_older, compare, timed in *.
      destruct (timestamp x), (timestamp y); try congruence.
      apply Z.leb_gt in Hc. lia.
Qed.

(** The sort puts the newest first. *)
Lemma sort_sorted (l : list Note) :
  Forall timed l -> StronglySorted not_older (sort l).
Proof.
  intros Hl. apply Sorted_StronglySorted.
  - intros a b c. apply not_older_trans.
  - induction Hl as [|x l Hx Hl IH]; cbn; [constructor|].
    apply insert_sorted; [exact Hx | apply sort_timed, Hl | exact IH].
Qed.

Lemma at_time_insert (t : Z) (x : Note) (l : list Note) :
  at_time t (insert x l) = at_time t (x :: l).
Proof.
  induction l as [|y l IH]; [reflexivity|].
  cbn [insert]. destruct (compare x y <=? 0)%Z eqn:Hc; [reflexivity|].
  unfold at_time in *. cbn [filter] in *. rewrite IH.
  apply Z.leb_gt in Hc. unfold compare in Hc.
  destruct (timestamp x) as [tx|], (timestamp y) as [ty|]; try lia.
  destruct (Z.eqb_spec tx t), (Z.eqb_spec ty t); try reflexivity. lia.
Qed.

(** The sort is stable: the notes of one timestamp keep the order the
    contract returned them in. *)
Lemma sort_stable (t : Z) (l : list Note) : at_time t (sort l) = at_time t l.
Proof.
  induction l as [|x l IH]; [reflexivity|].
  cbn [sort]. rewrite at_time_insert. unfold at_time in *. cbn [filter].
  rewrite IH. reflexivity.
Qed.

Lemma format_timed (ids : list Z) (titles : list string) (tss : list Z)
    (index : nat) :
  index + List.length ids <= List.length tss ->
  Forall timed (format index ids titles tss).
Proof.
  revert index. induction ids as [|i ids IH]; intros index H; cbn;
    constructor.
  - unfold timed. cbn. apply nth_error_Some. cbn in H. lia.
  - apply IH. cbn in H. lia.
Qed.


(** C6, as stated, fails: two notes of the same timestamp come out in the
    order the contract returned them, here by ascending id, not by
    descending id. *)
Lemma same_second_notes_keep_contract_order :
  map id (notes (run empty (trace (fetchNotes connected same_second))))
  = [1; 2]%Z /\
  ~ Sorted spec_before
      (notes (run empty (trace (fetchNotes connected same_second)))).
Proof.
  split; [reflexivity|].
  cbn. intros H.
  apply Sorted_inv in H. destruct H as [_ H].
  apply HdRel_inv in H. unfold spec_before in H. cbn in H. lia.
Qed.

(** C6, amended: after every fetch the cached list is in descending order
    of timestamp; notes of equal timestamp keep the order in which the
    contract returned them; the list holds exactly the returned notes. *)
Theorem fetched_list_newest_first (props : Props) (b : Backend) (st : State) :
  (forall ids titles timestamps,
     getNotesList b = Resolved (ids, titles, timestamps) ->
     List.length timestamps = List.length ids) ->
  let l := notes (run st (trace (fetchNotes props b))) in
  StronglySorted not_older l /\
  (forall ids titles timestamps,
     provider props && truthy (account props) &&
       truthy (contractAddress props) = true ->
     getSigner b = Resolved tt ->
     getNotesList b = Resolved (ids, titles, timestamps) ->
     Permutation l (format 0 ids titles timestamps) /\
     forall t, at_time t l = at_time t (format 0 ids titles timestamps)).
Proof.
  intros Hlen l. subst l. unfold fetchNotes.
  destruct (provider props); cbn [negb orb andb];
    [|split; [constructor | discriminate]].
  destruct (truthy (account props)); cbn [negb orb andb];
    [|split; [constructor | discriminate]].
  destruct (truthy (contractAddress props)); cbn [negb orb andb];
    [|split; [constructor | discriminate]].
  destruct (getSigner b) as [[]|e] eqn:Hs;
    [|split; [constructor | discriminate]].
  destruct (getNotesList b) as [[[ids titles] tss]|e] eqn:Hl;
    [|split; [constructor | discriminate]].
  cbn. split.
  - apply sort_sorted, format_timed.
    rewrite (Hlen ids titles tss eq_refl). cbn. lia.
  - intros ids' titles' tss' _ _ [= <- <- <-].
    split; [apply sort_perm | intros t; apply sort_stable].
Qed.

Lemma fetched_list_newest_first_witness :
  StronglySorted not_older
    (notes (run empty (trace (fetchNotes connected three_notes)))) /\
  map id (notes (run empty (trace (fetchNotes connected three_notes))))
  = [2; 3; 1]%Z.
Proof.
  split; [|reflexivity].
  apply (fetched_list_newest_first connected three_notes empty).
  intros ids titles timestamps [= <- <- <-]. reflexivity.
Defined.

End ListFacts.

(** ** ConnectWallet *)

Module WalletFacts.
Import ConnectWallet Fixtures.Wallets.

Lemma sessions_app (t1 t2 : list Event) :
  sessions (t1 ++ t2) = sessions t1 ++ sessions t2.
Proof.
  induction t1 as [|ev t1 IH]; [reflexivity|].
  cbn. destruct (installed ev); cbn; rewrite IH; reflexivity.
Qed.

(** [requestSignature] answers [true] exactly when the signature check
    passes; it sends one signature request and installs nothing itself. *)
Lemma requestSignature_spec (w : Wallet) (a : string) :
  (result (requestSignature w a) = Resolved true /\
   passes_verification w a /\
   trace (requestSignature w a) = [SignMessage (challenge a (now w))]) \/
  (result (requestSignature w a) = Resolved false /\
   ~ passes_verification w a /\
   exists e, trace (requestSignature w a) =
             [SignMessage (challenge a (now w)); SetError e]).
Proof.
  unfold requestSignature, passes_verification.
  remember (challenge a (now w)) as msg eqn:Hmsg.
  destruct (signMessage w msg) as [sig|e] eqn:Hsig.
  - destruct (verifyMessage w msg sig) as [rec|e] eqn:Hrec.
    + destruct (String.eqb (toLowerCase rec) (toLowerCase a)) eqn:Heq.
      * left. cbn. rewrite Hrec. cbn. rewrite Heq. cbn.
        repeat split. exists sig, rec. apply String.eqb_eq in Heq. auto.
      * right. cbn. rewrite Hrec. cbn. rewrite Heq. cbn.
        split; [reflexivity|]. split; [|eauto].
        intros (sig' & rec' & [= <-] & Hr & Hl).
        rewrite Hrec in Hr. injection Hr as <-.
        apply String.eqb_neq in Heq. contradiction.
    + right. cbn. rewrite Hrec. cbn.
      destruct (code_is e 4001); cbn;
        (split; [reflexivity|]; split; [|eauto]);
        intros (sig' & rec' & [= <-] & Hr & _); congruence.
  - right. cbn.
    destruct (code_is e 4001); cbn;
      (split; [reflexivity|]; split; [|eauto]);
      intros (sig' & rec' & Hs & _); congruence.
Qed.


(** Switching the network always ends with a boolean and never touches the
    account. *)
Lemma switchToFluentNetwork_spec (w : Wallet) :
  exists t b,
    switchToFluentNetwork w = (t, Resolved b) /\
    sessions t = [] /\
    filter is_sign_request t = [] /\
    forall st, account (run st t) = account st.
Proof.
  unfold switchToFluentNetwork.
  destruct (ethereum w); cbn; [|do 2 eexists; repeat split].
  destruct (switchEthereumChain w) as [[]|e]; cbn;
    [do 2 eexists; repeat split|].
  destruct (code_is e 4902); cbn; [|do 2 eexists; repeat split].
  destruct (addEthereumChain w) as [[]|e']; cbn; do 2 eexists; repeat split.
Qed.

(** The Session part of a verified candidate: the account is set, then the
    parent is told. *)
Lemma callOnConnected_sessions (props : Props) (a : string) :
  sessions (trace (callOnConnected props a (Some Web3Provider))) = [] \/
  sessions (trace (callOnConnected props a (Some Web3Provider))) = [a].
Proof.
  unfold callOnConnected. destruct (onConnected props); cbn; auto.
  destruct (truthy a); auto.
Qed.

Lemma callOnConnected_run (props : Props) (a : string) (p : option Provider)
    (st : State) :
  run st (trace (callOnConnected props a p)) = st /\
  result (callOnConnected props a p) = Resolved tt.
Proof. unfold callOnConnected. destruct (onConnected props); split; reflexivity. Qed.


(** The challenge block shared by [connectWallet] and
    [handleAccountsChanged]: request the signature for the candidate [a],
    install the Session if the check passed, do [otherwise] if not. *)
Lemma challenge_block (props : Props) (w : Wallet) (a : string)
    (otherwise : M Event unit) :
  let m := (signatureVerified <- requestSignature w a ;;
            if signatureVerified then
              emit (SetAccount a) ;;;
              callOnConnected props a (Some Web3Provider)
            else otherwise) in
  (passes_verification w a /\
   trace m = [SignMessage (challenge a (now w)); SetAccount a] ++
             trace (callOnConnected props a (Some Web3Provider)) /\
   result m = Resolved tt) \/
  (~ passes_verification w a /\
   (exists e, trace m = [SignMessage (challenge a (now w)); SetError e] ++
                        trace otherwise) /\
   result m = result otherwise).
Proof.
  intros m. subst m.
  destruct (requestSignature_spec w a) as [(Hr & Hp & Ht)|(Hr & Hp & e & Ht)].
  - left. split; [exact Hp|]. handler_simpl. rewrite Hr, Ht. handler_simpl.
    destruct (callOnConnected_run props a (Some Web3Provider) initial) as [_ ->].
    split; reflexivity.
  - right. split; [exact Hp|]. handler_simpl. rewrite Hr, Ht.
    split; [exists e; reflexivity | reflexivity].
Qed.

Ltac wallet_tidy Hst Hsa :=
  cbn [result ret trace fst snd app emit];
  repeat (progress (cbn; rewrite ?sessions_app, ?Hst, ?fold_left_app, ?Hsa)).

(** C1: a run of [connectWallet] installs a Session (a non-empty account
    in the state, a call of [onConnected] with it) only for the candidate
    account, the first one the wallet reported, and only if the address
    recovered from the signature over the challenge equals it up to letter
    case.  If the signature is refused or recovers to another address, no
    Session is installed and the account state is empty. *)
Theorem connect_installs_only_verified (props : Props) (w : Wallet)
    (st : State) :
  let tr := trace (connectWallet props w) in
  (forall a, In a (sessions tr) ->
     passes_verification w a /\
     exists rest, requestAccounts w = Resolved (a :: rest)) /\
  (forall a rest,
     ethereum w = true ->
     result (switchToFluentNetwork w) = Resolved true ->
     requestAccounts w = Resolved (a :: rest) ->
     ~ passes_verification w a ->
     sessions tr = [] /\ account (run st tr) = "") /\
  (account (run st tr) = account st \/
   account (run st tr) = "" \/
   passes_verification w (account (run st tr))).
Proof.
  intros tr. subst tr. unfold connectWallet.
  destruct (ethereum w) eqn:Heth; cbn [negb].
  2:{ cbn. repeat split; try tauto; try discriminate. }
  destruct (switchToFluentNetwork_spec w) as (t & b & Hsw & Hst & _ & Hsa).
  unfold run in *.
  handler_simpl. rewrite Hsw. cbn [result trace fst snd].
  destruct b; cbn [negb].
  2:{ handler_simpl. wallet_tidy Hst Hsa.
      repeat split; try tauto; try discriminate. }
  handler_simpl.
  destruct (requestAccounts w) as [[|a rest]|e] eqn:Hacc.
  - wallet_tidy Hst Hsa. repeat split; try tauto; try discriminate.
  - destruct (challenge_block props w a (emit (SetAccount "")))
      as [(Hp & Ht & Hr)|(Hp & (e & Ht) & Hr)];
      cbn zeta in Ht, Hr; rewrite Hr, Ht; cbn [result emit snd app].
    + unfold callOnConnected.
      destruct (onConnected props); wallet_tidy Hst Hsa;
        (split; [|split; [|right; right; exact Hp]]);
        try (intros a' rest' _ _ [= <- <-] Hn; contradiction);
        intros x Hx; destruct (truthy a); cbn in Hx;
        assert (x = a) as -> by (intuition congruence);
        (split; [exact Hp | eauto]).
    + wallet_tidy Hst Hsa. repeat split; try tauto; try discriminate.
  - wallet_tidy Hst Hsa. repeat split; try tauto; try discriminate.
Qed.


Example connect_honest_wallet :
  sessions (trace (connectWallet header (wallet alice Alice))) = [alice; alice] /\
  account (run initial (trace (connectWallet header (wallet alice Alice)))) = alice.
Proof. split; reflexivity. Qed.

Example connect_substituted_account :
  sessions (trace (connectWallet header (wallet alice bob))) = [] /\
  account (run connected_as_alice
             (trace (connectWallet header (wallet alice bob)))) = "".
Proof. split; reflexivity. Qed.

Example connect_declined_signature :
  sessions (trace (connectWallet header (declining alice))) = [] /\
  account (run initial (trace (connectWallet header (declining alice)))) = "".
Proof. split; reflexivity. Qed.

(** ** The account-change handler *)

(** The three shapes of a run of [handleAccountsChanged]. *)
Lemma handleAccountsChanged_trace (props : Props) (w : Wallet) (md : bool)
    (accounts : list string) :
  let tr := trace (handleAccountsChanged props w md accounts) in
  tr = [SetAccount ""] \/
  (exists b rest,
     accounts = b :: rest /\ passes_verification w b /\
     tr = [SetAccount ""; SetIsConnecting true; SetError "";
           SignMessage (challenge b (now w)); SetAccount b] ++
          trace (callOnConnected props b (Some Web3Provider)) ++
          [SetIsConnecting false]) \/
  (exists b rest e,
     accounts = b :: rest /\ ~ passes_verification w b /\
     tr = [SetAccount ""; SetIsConnecting true; SetError "";
           SignMessage (challenge b (now w)); SetError e;
           SetIsConnecting false]).
Proof.
  intros tr. subst tr. unfold handleAccountsChanged.
  destruct accounts as [|b rest]; [left; reflexivity|].
  destruct md; cbn [negb]; [left; reflexivity|].
  destruct (challenge_block props w b (ret tt))
    as [(Hp & Ht & Hr)|(Hp & (e & Ht) & Hr)];
    cbn zeta in Ht, Hr;
    match type of Hr with result ?m = _ => remember m as block eqn:Hb end;
    handler_simpl; rewrite Hr, Ht.
  - right. left. exists b, rest. split; [reflexivity|].
    split; [exact Hp|]. cbn [app]. rewrite <- ?app_assoc. reflexivity.
  - right. right. exists b, rest, e. split; [reflexivity|].
    split; [exact Hp | reflexivity].
Qed.

(** Every way of cutting a listed trace at one of its events. *)
Ltac cut_trace H pre :=
  destruct pre as [|? pre]; cbn [app] in H;
  [ try discriminate H; injection H as ? ?; subst
  | try discriminate H; injection H as ? H; subst; try cut_trace H pre ].


(** Inside the wallet component, a run of the account-change handler
    first clears the account; when the signature for the new account is
    requested the component's account is empty and the run has installed
    nothing; an account is installed only for the new account, only after
    its signature was requested and only if the check passed; and every
    state the component goes through is bound to no account or to the
    verified new one. *)
Theorem account_change_fails_closed (props : Props) (w : Wallet) (md : bool)
    (accounts : list string) (st : State) :
  let tr := trace (handleAccountsChanged props w md accounts) in
  (exists rest, tr = SetAccount "" :: rest) /\
  (forall pre msg post,
     tr = pre ++ SignMessage msg :: post ->
     account (run st pre) = "" /\ sessions pre = []) /\
  (forall pre ev post a,
     tr = pre ++ ev :: post ->
     installed ev = Some a ->
     hd_error accounts = Some a /\
     passes_verification w a /\
     In (SignMessage (challenge a (now w))) pre) /\
  Forall (fun s => account s = "" \/
                   (hd_error accounts = Some (account s) /\
                    passes_verification w (account s)))
         (states st tr).
Proof.
  intros tr.
  destruct (handleAccountsChanged_trace props w md accounts)
    as [H|[(b & rest & -> & Hp & H)|(b & rest & e & -> & Hp & H)]];
    fold tr in H; rewrite H; clear H tr.
  - split; [eauto|]. split; [|split].
    + intros pre msg post H. cut_trace H pre.
    + intros pre ev post a H Hi. cut_trace H pre. discriminate Hi.
    + repeat constructor.
  - unfold callOnConnected.
    destruct (onConnected props); cbn [trace emit ret fst app];
      (split; [eauto|]; split; [|split]).
    + intros pre msg post H. cut_trace H pre. split; reflexivity.
    + intros pre ev post a H Hi. cut_trace H pre; cbn in Hi;
        try discriminate Hi;
        destruct (truthy b); try discriminate Hi; injection Hi as <-;
        (split; [reflexivity|]; split; [exact Hp|]); cbn; tauto.
    + cbn [states];
        repeat (apply Forall_cons;
                [cbn; first [left; reflexivity
                            | right; split; [reflexivity | exact Hp]]|]);
        apply Forall_nil.
    + intros pre msg post H. cut_trace H pre. split; reflexivity.
    + intros pre ev post a H Hi. cut_trace H pre; cbn in Hi;
        try discriminate Hi;
        destruct (truthy b); try discriminate Hi; injection Hi as <-;
        (split; [reflexivity|]; split; [exact Hp|]); cbn; tauto.
    + cbn [states];
        repeat (apply Forall_cons;
                [cbn; first [left; reflexivity
                            | right; split; [reflexivity | exact Hp]]|]);
        apply Forall_nil.
  - split; [eauto|]. split; [|split].
    + intros pre msg post H. cut_trace H pre. split; reflexivity.
    + intros pre ev post a H Hi. cut_trace H pre; cbn in Hi; discriminate Hi.
    + repeat constructor.
Qed.


(** A notification is the handler with the flag it captured, if the
    listener is registered at all. *)
Lemma accountsChanged_registered (props : Props) (w : Wallet) (st : State)
    (accounts : list string) :
  ethereum w = true -> manuallyDisconnected st = false ->
  accountsChanged props w st accounts =
  handleAccountsChanged props w false accounts.
Proof.
  intros He Hm. unfold accountsChanged, listener. rewrite He, Hm. reflexivity.
Qed.


(** When the new account fails the check, the handler tells the parent
    nothing: [onConnected] is not called, not even with the empty
    account. *)
Lemma failed_reverification_is_silent (props : Props) (w : Wallet)
    (md : bool) (b : string) (rest : list string) :
  ~ passes_verification w b ->
  forall a p,
    ~ In (OnConnected a p) (trace (handleAccountsChanged props w md (b :: rest))).
Proof.
  intros Hn a p.
  destruct (handleAccountsChanged_trace props w md (b :: rest))
    as [H|[(b' & rest' & [= <- <-] & Hp & H)|(b' & rest' & e & [= <- <-] & _ & H)]];
    cbn zeta in H; try contradiction; rewrite H; cbn;
    intuition discriminate.
Qed.

(** ** Disconnecting *)



Lemma handleAccountsChanged_keeps_flag (props : Props) (w : Wallet)
    (md : bool) (accounts : list string) :
  forallb keeps_flag (trace (handleAccountsChanged props w md accounts)) = true.
Proof.
  change (every keeps_flag (handleAccountsChanged props w md accounts)).
  unfold handleAccountsChanged, requestSignature, callOnConnected.
  repeat every_step.
Qed.




(** Before any disconnect, a change of account does trigger the
    challenge for the new account. *)
Example account_change_reauthenticates :
  manuallyDisconnected connected_as_alice = false /\
  filter is_sign_request
    (trace (accountsChanged header (wallet bob bob) connected_as_alice [bob]))
  = [SignMessage (challenge bob 1700000000000)] /\
  account (step header connected_as_alice
             (AccountsChanged (wallet bob bob) [bob])) = bob.
Proof. repeat split. Qed.



End WalletFacts.

(* ================================================================== *)
(** * Further properties of the code *)

(** ** ConnectWallet: network switch, order of requests, reporting *)

Module WalletOrderFacts.
Import ConnectWallet WalletEvents Fixtures.Wallets MoreFixtures.Wallets WalletFacts.

Lemma switch_events (w : Wallet) :
  forallb switch_event (trace (switchToFluentNetwork w)) = true.
Proof.
  change (every switch_event (switchToFluentNetwork w)).
  unfold switchToFluentNetwork. repeat every_step.
Qed.

(** X1: with a wallet present, [switchToFluentNetwork] asks the wallet to
    add the network exactly when the switch was rejected with code 4902,
    and it answers [true] exactly when the switch was accepted or, after
    such a rejection, the addition was; an accepted switch or addition
    leaves the error message alone. *)
Theorem switch_adds_network_only_when_unknown (w : Wallet) :
  ethereum w = true ->
  let m := switchToFluentNetwork w in
  (In AddChain (trace m) <->
   exists e, switchEthereumChain w = Rejected e /\ code_is e 4902 = true) /\
  (result m = Resolved true <->
   switchEthereumChain w = Resolved tt \/
   exists e, switchEthereumChain w = Rejected e /\ code_is e 4902 = true /\
             addEthereumChain w = Resolved tt) /\
  (result m = Resolved true ->
   forall st, error (run st (trace m)) = error st) /\
  (result m = Resolved true \/ result m = Resolved false).
Proof.
  intros He m. subst m. unfold switchToFluentNetwork. rewrite He. cbn [negb].
  destruct (switchEthereumChain w) as [[]|e] eqn:Hs; cbn.
  - repeat split; auto.
    + intros [H|[]]; discriminate.
    + intros (e & H & _); discriminate.
  - destruct (code_is e 4902) eqn:Hc; cbn.
    + destruct (addEthereumChain w) as [[]|e'] eqn:Ha; cbn.
      * repeat split; auto; eauto 6.
      * repeat split; auto; eauto.
        -- discriminate.
        -- intros [H|(e0 & _ & _ & H)]; discriminate.
        -- discriminate.
    + repeat split; auto.
      * intros [H|[H|[]]]; discriminate.
      * intros (e0 & [= <-] & H). congruence.
      * discriminate.
      * intros [H|(e0 & [= <-] & H & _)]; congruence.
      * discriminate.
Qed.

Lemma switch_adds_network_only_when_unknown_witness :
  result (switchToFluentNetwork unknown_network) = Resolved true /\
  In AddChain (trace (switchToFluentNetwork unknown_network)).
Proof.
  destruct (switch_adds_network_only_when_unknown unknown_network eq_refl)
    as (Hadd & Hres & _).
  split.
  - apply Hres. right. eexists. repeat split.
  - apply Hadd. eexists. split; reflexivity.
Defined.


Ltac handler_steps := repeat (progress (handler_simpl; cbn [negb])).

(** The runs of [connectWallet] with a wallet present, by what the wallet
    answers. *)
Lemma connectWallet_shapes (props : Props) (w : Wallet) :
  ethereum w = true ->
  exists t b,
    switchToFluentNetwork w = (t, Resolved b) /\
    let tr := trace (connectWallet props w) in
    let pre := [SetIsConnecting true; SetError ""] ++ t in
    (b = false /\
     tr = pre ++ [SetIsConnecting false; SetIsConnecting false]) \/
    (b = true /\ exists e,
       requestAccounts w = Rejected e /\
       tr = pre ++ [RequestAccounts;
                    SetError ("Failed to connect wallet. " ++ or_empty (message e));
                    SetIsConnecting false]) \/
    (b = true /\ requestAccounts w = Resolved [] /\
     tr = pre ++ [RequestAccounts; SetIsConnecting false]) \/
    (b = true /\ exists a rest,
       requestAccounts w = Resolved (a :: rest) /\
       passes_verification w a /\
       tr = pre ++ [RequestAccounts; SignMessage (challenge a (now w));
                    SetAccount a] ++
            trace (callOnConnected props a (Some Web3Provider)) ++
            [SetIsConnecting false]) \/
    (b = true /\ exists a rest e,
       requestAccounts w = Resolved (a :: rest) /\
       ~ passes_verification w a /\
       tr = pre ++ [RequestAccounts; SignMessage (challenge a (now w));
                    SetError e; SetAccount ""; SetIsConnecting false]).
Proof.
  intros He.
  destruct (switchToFluentNetwork_spec w) as (t & b & Hsw & _).
  exists t, b. split; [exact Hsw|]. cbn zeta.
  unfold connectWallet. rewrite He. cbn [negb].
  destruct b.
  - destruct (requestAccounts w) as [[|a rest]|e] eqn:Hacc.
    + right. right. left. split; [reflexivity|]. split; [reflexivity|].
      handler_simpl. rewrite Hsw. handler_steps. cbn.
      rewrite <- ?app_assoc. reflexivity.
    + destruct (requestSignature_spec w a) as [(Hr & Hp & Ht)|(Hr & Hp & e & Ht)].
      * right. right. right. left. split; [reflexivity|].
        exists a, rest. split; [reflexivity|]. split; [exact Hp|].
        handler_simpl. rewrite Hsw. handler_steps. rewrite Hr, Ht.
        handler_steps.
        destruct (callOnConnected_run props a (Some Web3Provider) initial)
          as [_ ->].
        cbn. rewrite <- ?app_assoc. reflexivity.
      * right. right. right. right. split; [reflexivity|].
        exists a, rest, e. split; [reflexivity|]. split; [exact Hp|].
        handler_simpl. rewrite Hsw. handler_steps. rewrite Hr, Ht.
        handler_steps. cbn. rewrite <- ?app_assoc. reflexivity.
    + right. left. split; [reflexivity|]. exists e. split; [reflexivity|].
      handler_simpl. rewrite Hsw. handler_steps. cbn.
      rewrite <- ?app_assoc. reflexivity.
  - left. split; [reflexivity|].
    handler_simpl. rewrite Hsw. handler_steps. cbn.
    rewrite <- ?app_assoc. reflexivity.
Qed.


Lemma switch_trace_event (w : Wallet) (t : list Event) (b : bool) (ev : Event) :
  switchToFluentNetwork w = (t, Resolved b) ->
  In ev t -> switch_event ev = true.
Proof.
  intros Hsw Hin. pose proof (switch_events w) as H. rewrite Hsw in H.
  cbn [trace fst] in H. rewrite forallb_forall in H. apply H, Hin.
Qed.

Lemma switch_adds_no_error_when_accepted (w : Wallet) (t : list Event) :
  switchToFluentNetwork w = (t, Resolved true) ->
  forall st, error (run st t) = error st.
Proof.
  unfold switchToFluentNetwork.
  destruct (ethereum w); cbn; [|discriminate].
  destruct (switchEthereumChain w) as [[]|e]; cbn.
  - intros [= <-] st. reflexivity.
  - destruct (code_is e 4902); cbn; [|discriminate].
    destruct (addEthereumChain w) as [[]|e']; cbn; [|discriminate].
    intros [= <-] st. reflexivity.
Qed.

(** Splits a membership in a listed trace around the events of the
    network switch. *)
Ltac in_trace H Hsw :=
  repeat (apply in_app_or in H; destruct H as [H|H]);
  cbn [In] in H;
  repeat match type of H with
         | _ \/ _ => destruct H as [H|H]
         | False => destruct H
         end;
  try discriminate H;
  try (apply (switch_trace_event _ _ _ _ Hsw) in H; discriminate H).

(** X2: [connectWallet] never sends a later request when an earlier step
    failed: accounts are requested only with a wallet present and the
    network switched, a signature only for the first account the wallet
    reported and only over its challenge; without a wallet the run is one
    error message; and a wallet that reports no account at all ends the
    run silently, with no error and the account as it was. *)
Theorem connect_requests_in_order (props : Props) (w : Wallet) :
  let tr := trace (connectWallet props w) in
  (In RequestAccounts tr ->
   ethereum w = true /\ result (switchToFluentNetwork w) = Resolved true) /\
  (forall msg, In (SignMessage msg) tr ->
     In RequestAccounts tr /\
     exists a rest, requestAccounts w = Resolved (a :: rest) /\
                    msg = challenge a (now w)) /\
  (ethereum w = false ->
   tr = [SetError "No Ethereum wallet detected. Please install MetaMask."]) /\
  (ethereum w = true ->
   result (switchToFluentNetwork w) = Resolved true ->
   requestAccounts w = Resolved [] ->
   forall st, error (run st tr) = "" /\ account (run st tr) = account st).
Proof.
  intros tr. subst tr.
  destruct (ethereum w) eqn:He.
  2:{ unfold connectWallet. rewrite He. cbn.
      repeat split; try discriminate; intuition discriminate. }
  destruct (connectWallet_shapes props w He) as (t & b & Hsw & Hshape).
  cbn zeta in Hshape. rewrite Hsw. cbn [result snd].
  destruct Hshape as
    [(-> & Htr)|[(-> & e & Hacc & Htr)|[(-> & Hacc & Htr)|
     [(-> & a & rest & Hacc & Hp & Htr)|(-> & a & rest & e & Hacc & Hp & Htr)]]]];
    rewrite Htr; clear Htr;
    (split; [|split; [|split; [discriminate|]]]).
  - intros H. in_trace H Hsw.
  - intros msg H. in_trace H Hsw.
  - intros _ [=].
  - intros _. auto.
  - intros msg H. in_trace H Hsw.
  - intros _ _ Hn. congruence.
  - intros _. auto.
  - intros msg H. in_trace H Hsw.
  - intros _ _ _ st.
    destruct (switchToFluentNetwork_spec w) as (t' & b' & Hsw' & _ & _ & Hsa).
    rewrite Hsw in Hsw'. injection Hsw' as <- <-.
    unfold run in *. rewrite !fold_left_app. cbn.
    split.
    + pose proof (switch_adds_no_error_when_accepted w t Hsw) as Hk.
      unfold run in Hk. rewrite Hk. reflexivity.
    + rewrite Hsa. reflexivity.
  - intros _. auto.
  - intros msg H. unfold callOnConnected in *.
    destruct (onConnected props); cbn [trace emit ret fst] in *;
      in_trace H Hsw; injection H as <-;
      (split; [apply in_or_app; right; cbn; auto | eauto]).
  - intros _ _ Hn. congruence.
  - intros _. auto.
  - intros msg H. in_trace H Hsw. injection H as <-.
    split; [apply in_or_app; right; cbn; auto | eauto].
  - intros _ _ Hn. congruence.
Qed.


(** X3: the connecting flag never stays on: a run of [connectWallet] with
    a wallet present ends with [isConnecting = false] whatever the wallet
    answers, and so does every run of the account-change handler that
    started a verification. *)
Theorem connecting_flag_is_always_reset (props : Props) (w : Wallet)
    (st : State) :
  ethereum w = true ->
  isConnecting (run st (trace (connectWallet props w))) = false /\
  (forall b rest,
     isConnecting
       (run st (trace (handleAccountsChanged props w false (b :: rest))))
     = false).
Proof.
  intros He. split.
  - destruct (connectWallet_shapes props w He) as (t & b & _ & Hshape).
    cbn zeta in Hshape.
    destruct Hshape as
      [(_ & Htr)|[(_ & e & _ & Htr)|[(_ & _ & Htr)|
       [(_ & a & rest & _ & _ & Htr)|(_ & a & rest & e & _ & _ & Htr)]]]];
      rewrite Htr; unfold run; rewrite ?fold_left_app; reflexivity.
  - intros b rest. unfold handleAccountsChanged. cbn [negb].
    rewrite trace_bind, result_emit, trace_finally.
    unfold run. rewrite !fold_left_app. reflexivity.
Qed.

Lemma connecting_flag_is_always_reset_witness :
  isConnecting (run {| account := ""; isConnecting := true; error := "";
                       manuallyDisconnected := false |}
                  (trace (connectWallet header refusing_network))) = false.
Proof.
  apply (connecting_flag_is_always_reset header refusing_network).
  reflexivity.
Defined.

(** X4: [requestSignature] never throws and never touches the account;
    it answers [true] exactly when the check passes, leaving the error
    message alone, and otherwise reports why: a refusal with code 4001 as
    the request to sign, any other failure of signing or of recovering the
    address with its message, and a recovered address that differs as a
    failed verification. *)
Theorem requestSignature_reports (w : Wallet) (a : string) (st : State) :
  let m := requestSignature w a in
  let st' := run st (trace m) in
  let thrown e :=
    if code_is e 4001
    then "You must sign the message to authenticate with the app."
    else ("Failed to verify wallet ownership: " ++ or_empty (message e))%string in
  account st' = account st /\
  (result m = Resolved true \/ result m = Resolved false) /\
  (result m = Resolved true <-> passes_verification w a) /\
  (result m = Resolved true -> error st' = error st) /\
  (forall e, signMessage w (challenge a (now w)) = Rejected e ->
     error st' = thrown e) /\
  (forall sig e,
     signMessage w (challenge a (now w)) = Resolved sig ->
     verifyMessage w (challenge a (now w)) sig = Rejected e ->
     error st' = thrown e) /\
  (forall sig recovered,
     signMessage w (challenge a (now w)) = Resolved sig ->
     verifyMessage w (challenge a (now w)) sig = Resolved recovered ->
     toLowerCase recovered <> toLowerCase a ->
     error st' = "Signature verification failed. Please try connecting again.").
Proof.
  intros m st' thrown. subst m st' thrown.
  destruct (requestSignature_spec w a) as [(Hr & Hp & Ht)|(Hr & Hp & e0 & Ht)].
  - rewrite Hr, Ht.
    destruct Hp as (sig & rec & Hs & Hv & Hl).
    remember (challenge a (now w)) as msg eqn:Hmsg.
    repeat split; auto.
    + intros _. exists sig, rec. subst msg. auto.
    + intros e He. congruence.
    + intros sig' e Hs' Hv'. congruence.
    + intros sig' rec' Hs' Hv' Hn. congruence.
  - assert (Hacc : account (run st (trace (requestSignature w a))) = account st)
      by (rewrite Ht; reflexivity).
    split; [exact Hacc|]. split; [right; exact Hr|].
    split; [split; [intros H; congruence | intros H; contradiction]|].
    split; [intros H; congruence|].
    clear Hr Ht Hacc Hp e0. unfold requestSignature.
    remember (challenge a (now w)) as msg eqn:Hmsg.
    repeat split.
    + intros e He. cbn. rewrite He. cbn.
      destruct (code_is e 4001); reflexivity.
    + intros sig e Hs Hv. cbn. rewrite Hs. cbn. rewrite Hv. cbn.
      destruct (code_is e 4001); reflexivity.
    + intros sig rec Hs Hv Hn. cbn. rewrite Hs. cbn. rewrite Hv. cbn.
      apply String.eqb_neq in Hn. rewrite Hn. reflexivity.
Qed.

End WalletOrderFacts.

(** ** App: the wallet callbacks and the view *)

Module AppSessionFacts.
Import ConnectWallet WalletEvents Fixtures.Wallets MoreFixtures.Wallets.
Import WalletFacts WalletOrderFacts.
Import App AppSession MoreFixtures.Apps.

Lemma afterWallet_app (s : AppState) (t1 t2 : list Event) :
  afterWallet s (t1 ++ t2) = afterWallet (afterWallet s t1) t2.
Proof. apply fold_left_app. Qed.

(** A trace that calls no [onConnected] leaves the application alone. *)
Lemma afterWallet_silent (tr : list Event) (s : AppState) :
  (forall a p, ~ In (OnConnected a p) tr) -> afterWallet s tr = s.
Proof.
  revert s. induction tr as [|ev tr IH]; intros s H; [reflexivity|].
  cbn. destruct ev; try (apply IH; intros a' p' Hin; apply (H a' p'); right; exact Hin).
  exfalso. apply (H a p). left. reflexivity.
Qed.

Lemma afterWallet_switch (w : Wallet) (t : list Event) (b : bool) (s : AppState) :
  switchToFluentNetwork w = (t, Resolved b) -> afterWallet s t = s.
Proof.
  intros Hsw. apply afterWallet_silent. intros a p Hin.
  apply (switch_trace_event _ _ _ _ Hsw) in Hin. discriminate Hin.
Qed.

(** C2: the account-change handler clears the account of the wallet
    component only.  It calls [onConnected] for a verified new account and
    for nothing else, never with the empty account as [disconnectWallet]
    does.  So when the signature for the new account is requested the
    component's account is empty, but the application still holds the
    account, the provider and the note state it had: the Session bound to
    the old account is not cleared before the verification begins.  And
    when the new account fails the check, the application holds them after
    the run as well. *)
Theorem account_change_leaves_the_application_bound (props : Props)
    (w : Wallet) (md : bool) (accounts : list string) (st : State)
    (s : AppState) :
  let tr := trace (handleAccountsChanged props w md accounts) in
  (forall pre msg post,
     tr = pre ++ SignMessage msg :: post ->
     ConnectWallet.account (run st pre) = "" /\
     afterWallet s pre = s) /\
  (forall a p,
     In (OnConnected a p) tr ->
     hd_error accounts = Some a /\ passes_verification w a /\
     p = Some Web3Provider) /\
  ((forall b, hd_error accounts = Some b -> ~ passes_verification w b) ->
   ConnectWallet.account (run st tr) = "" /\
   afterWallet s tr = s /\
   shown (afterWallet s tr) = shown s).
Proof.
  intros tr.
  destruct (handleAccountsChanged_trace props w md accounts)
    as [H|[(b & rest & -> & Hp & H)|(b & rest & e & -> & Hp & H)]];
    fold tr in H; rewrite H; clear H tr.
  - split; [|split].
    + intros pre msg post H. cut_trace H pre.
    + intros a p [Hin|[]]. discriminate Hin.
    + intros _. repeat split.
  - unfold callOnConnected.
    destruct (onConnected props); cbn [trace emit ret fst app];
      (split; [|split]).
    + intros pre msg post H. cut_trace H pre. split; reflexivity.
    + intros a p Hin. cbn in Hin.
      repeat (destruct Hin as [Hin|Hin]; try discriminate Hin);
        try contradiction.
      injection Hin as <- <-. repeat split. exact Hp.
    + intros Hf. exfalso. exact (Hf b eq_refl Hp).
    + intros pre msg post H. cut_trace H pre. split; reflexivity.
    + intros a p Hin. cbn in Hin.
      repeat (destruct Hin as [Hin|Hin]; try discriminate Hin).
      contradiction.
    + intros Hf. exfalso. exact (Hf b eq_refl Hp).
  - split; [|split].
    + intros pre msg post H. cut_trace H pre. split; reflexivity.
    + intros a p Hin. cbn in Hin.
      repeat (destruct Hin as [Hin|Hin]; try discriminate Hin).
      contradiction.
    + intros _. repeat split.
Qed.

Lemma account_change_leaves_the_application_bound_witness :
  let w := declining bob in
  let tr := trace (handleAccountsChanged header w false [bob]) in
  let pre := [SetAccount ""; SetIsConnecting true; SetError ""] in
  alice <> bob /\
  ~ passes_verification w bob /\
  tr = pre ++
       [SignMessage (challenge bob (now w));
        SetError "You must sign the message to authenticate with the app.";
        SetIsConnecting false] /\
  ConnectWallet.account (run connected_as_alice pre) = "" /\
  AppSession.account (afterWallet alice_editing_5 pre) = alice /\
  AppSession.provider (afterWallet alice_editing_5 pre) = Some Web3Provider /\
  shown (afterWallet alice_editing_5 pre) = App.Editing 5 /\
  ConnectWallet.account (run connected_as_alice tr) = "" /\
  AppSession.account (afterWallet alice_editing_5 tr) = alice /\
  AppSession.provider (afterWallet alice_editing_5 tr) = Some Web3Provider /\
  shown (afterWallet alice_editing_5 tr) = App.Editing 5.
Proof.
  intros w tr pre.
  assert (Hn : ~ passes_verification w bob)
    by (intros (sig & rec & Hs & _); discriminate Hs).
  assert (Htr : tr = pre ++
                [SignMessage (challenge bob (now w));
                 SetError "You must sign the message to authenticate with the app.";
                 SetIsConnecting false]) by reflexivity.
  destruct (account_change_leaves_the_application_bound header w false [bob]
              connected_as_alice alice_editing_5) as (Hcut & _ & Hfail).
  destruct (Hcut pre _ _ Htr) as (Hc & Ha).
  destruct (Hfail (fun b Hb => match Hb with eq_refl => Hn end))
    as (Hc' & Ha' & _).
  fold tr in Hc', Ha'.
  split; [discriminate|]. split; [exact Hn|]. split; [exact Htr|].
  split; [exact Hc|]. rewrite Ha.
  split; [reflexivity|]. split; [reflexivity|]. split; [reflexivity|].
  split; [exact Hc'|]. rewrite Ha'.
  split; [reflexivity|]. split; reflexivity.
Defined.


(** X5: when an account change does not end in a verified new account
    (no account reported, or the new account fails the check), the handler
    empties the account of the wallet component but calls no
    [onConnected]: the application keeps the account, the provider and the
    note state it had. *)
Theorem unverified_account_change_keeps_the_application (props : Props)
    (w : Wallet) (md : bool) (accounts : list string) (st : State)
    (s : AppState) :
  (forall b rest, accounts = b :: rest -> md = false ->
                  ~ passes_verification w b) ->
  let tr := trace (handleAccountsChanged props w md accounts) in
  ConnectWallet.account (run st tr) = "" /\
  afterWallet s tr = s /\
  shown (afterWallet s tr) = shown s.
Proof.
  intros Hfail tr.
  assert (Hshape : tr = [SetAccount ""] \/
                   exists b e, tr = [SetAccount ""; SetIsConnecting true;
                                     SetError ""; SignMessage (challenge b (now w));
                                     SetError e; SetIsConnecting false]).
  { destruct (handleAccountsChanged_trace props w md accounts)
      as [H|[(b & rest & Ha & Hp & H)|(b & rest & e & Ha & Hp & H)]];
      fold tr in H; [left; exact H | | right; eauto].
    exfalso. destruct md.
    - unfold tr, handleAccountsChanged in H. rewrite Ha in H. discriminate H.
    - exact (Hfail b rest Ha eq_refl Hp). }
  destruct Hshape as [->|(b & e & ->)]; repeat split.
Qed.

Lemma unverified_account_change_keeps_the_application_witness :
  ConnectWallet.account
    (run connected_as_alice
       (trace (handleAccountsChanged header (declining bob) false [bob]))) = "" /\
  AppSession.account
    (afterWallet alice_editing_5
       (trace (handleAccountsChanged header (declining bob) false [bob])))
  = alice.
Proof.
  destruct (unverified_account_change_keeps_the_application header
              (declining bob) false [bob] connected_as_alice alice_editing_5)
    as (Hc & Ha & _).
  - intros b rest [= <- <-] _ (sig & rec & Hs & _). discriminate Hs.
  - split; [exact Hc | rewrite Ha; reflexivity].
Defined.


(** X6: the wallet callbacks reset the view.  A disconnect takes the
    application to the no-session view with no account and no provider;
    a connect that passes verification takes it to the unselected list of
    the connected account; neither resumes a selection or an edit that was
    going on. *)
Theorem wallet_callbacks_reset_the_view (props : Props) (w : Wallet)
    (s : AppState) (a : string) (rest : list string) :
  onConnected props = true ->
  ethereum w = true ->
  result (switchToFluentNetwork w) = Resolved true ->
  requestAccounts w = Resolved (a :: rest) ->
  passes_verification w a ->
  let off := afterWallet s (trace (disconnectWallet props)) in
  let on := afterWallet off (trace (connectWallet props w)) in
  shown off = NoSession /\
  AppSession.account off = "" /\ provider off = None /\
  AppSession.account on = a /\ provider on = Some Web3Provider /\
  selectedNoteId (noteState on) = None /\
  isEditing (noteState on) = false /\
  shown on = (if truthy a then Browsing else NoSession).
Proof.
  intros Hcb He Hsw Hacc Hp off on.
  assert (Hoff : off = handleConnect "" None s).
  { subst off. unfold disconnectWallet, callOnConnected. rewrite Hcb.
    reflexivity. }
  assert (Hon : on = handleConnect a (Some Web3Provider) off).
  { subst on.
    destruct (connectWallet_shapes props w He) as (t & b & Hsw' & Hshape).
    rewrite Hsw' in Hsw. cbn in Hsw. injection Hsw as ->.
    cbn zeta in Hshape.
    destruct Hshape as
      [([=] & _)|[(_ & e & Hacc' & _)|[(_ & Hacc' & _)|
       [(_ & a' & rest' & Hacc' & _ & Htr)|(_ & a' & rest' & e & Hacc' & Hn & _)]]]];
      try congruence.
    rewrite Hacc in Hacc'. injection Hacc' as <- <-.
    rewrite Htr. unfold callOnConnected. rewrite Hcb.
    rewrite !afterWallet_app, (afterWallet_switch w t true _ Hsw').
    reflexivity. }
  rewrite Hon, Hoff. unfold shown, view. cbn.
  destruct (truthy a); repeat split.
Qed.

Lemma wallet_callbacks_reset_the_view_witness :
  shown (afterWallet alice_editing_5 (trace (disconnectWallet header)))
  = NoSession /\
  shown (afterWallet
           (afterWallet alice_editing_5 (trace (disconnectWallet header)))
           (trace (connectWallet header (wallet alice Alice))))
  = Browsing.
Proof.
  destruct (wallet_callbacks_reset_the_view header (wallet alice Alice)
              alice_editing_5 alice [] eq_refl eq_refl eq_refl eq_refl)
    as (Hoff & _ & _ & _ & _ & _ & _ & Hon).
  - exists ("0xsigned:" ++ challenge alice 1700000000000)%string, Alice.
    repeat split.
  - split; [exact Hoff | exact Hon].
Defined.

(** X7: the view the application shows moves as a state machine: after
    any action it is the view [next] gives for the view before, whatever
    else the state holds. *)
Theorem shown_view_is_a_state_machine (a : Action) (s : AppState) :
  shown (step a s) = next a (shown s).
Proof.
  unfold shown, step, next, onNoteState, view, handleSelectNote,
    handleCreateNote, handleEditNote, handleNoteSaved, handleCancelEdit,
    refreshAttempt, AppSession.handleConnect, App.handleConnect, or_else,
    selection.
  destruct s as [acc prov [sel ed key rt]]. cbn.
  destruct a as [id|t|t|[x|]|t|t|w p]; cbn;
    destruct (truthy acc); cbn; try reflexivity;
    try (destruct (truthy w); reflexivity);
    destruct ed, sel as [i|]; cbn; try reflexivity;
    try (destruct (x =? 0)%Z; reflexivity).
Qed.

(** X8: the editing view of a note is entered only by the edit request
    made while that note is viewed; any other action reaches it only by
    staying in it.  In particular it is never entered from creating or
    from the unselected list. *)
Theorem editing_is_entered_from_viewing_only (a : Action) (s : AppState)
    (id : Z) :
  shown (step a s) = Editing id ->
  shown s = Editing id \/ (exists t, a = Edit t /\ shown s = Viewing id).
Proof.
  unfold shown, step, onNoteState, view, handleSelectNote,
    handleCreateNote, handleEditNote, handleNoteSaved, handleCancelEdit,
    refreshAttempt, AppSession.handleConnect, App.handleConnect, or_else.
  destruct s as [acc prov [sel ed key rt]]. cbn.
  destruct a as [n|t|t|[x|]|t|t|w p]; cbn;
    try (destruct (truthy w); discriminate);
    destruct (truthy acc); cbn; try discriminate;
    destruct ed, sel as [i|]; cbn; try discriminate;
    try (destruct (x =? 0)%Z; discriminate);
    intros [= <-]; eauto.
Qed.

Lemma editing_is_entered_from_viewing_only_witness :
  shown alice_viewing_5 = Editing 5 \/
  (exists t, Edit 1700000000000 = Edit t /\ shown alice_viewing_5 = Viewing 5).
Proof.
  apply (editing_is_entered_from_viewing_only (Edit 1700000000000)
           alice_viewing_5 5).
  reflexivity.
Defined.

(** X22: an account change whose new account passes the check replaces
    the session everywhere: the wallet component is bound to the new
    account, the application receives it with a provider, and the view is
    reset to the unselected list of the new account, dropping any
    selection or edit made under the old one. *)
Theorem verified_account_change_replaces_the_session (props : Props)
    (w : Wallet) (b : string) (rest : list string) (st : State)
    (s : AppState) :
  onConnected props = true ->
  passes_verification w b ->
  let tr := trace (handleAccountsChanged props w false (b :: rest)) in
  ConnectWallet.account (run st tr) = b /\
  afterWallet s tr = handleConnect b (Some Web3Provider) s /\
  selectedNoteId (noteState (afterWallet s tr)) = None /\
  shown (afterWallet s tr) = (if truthy b then Browsing else NoSession).
Proof.
  intros Hcb Hp tr.
  assert (Htr : tr = [SetAccount ""; SetIsConnecting true; SetError "";
                      SignMessage (challenge b (now w)); SetAccount b;
                      OnConnected b (Some Web3Provider);
                      SetIsConnecting false]).
  { destruct (handleAccountsChanged_trace props w false (b :: rest))
      as [H|[(b' & rest' & [= <- <-] & _ & H)|(b' & rest' & e & [= <- <-] & Hn & H)]];
      fold tr in H.
    - unfold tr, handleAccountsChanged in H. cbn [negb] in H.
      rewrite trace_bind, result_emit, trace_finally in H.
      apply (f_equal (@List.length Event)) in H.
      rewrite !length_app in H. cbn in H. lia.
    - rewrite H. unfold callOnConnected. rewrite Hcb. reflexivity.
    - contradiction. }
  rewrite Htr. unfold shown, view. cbn.
  destruct (truthy b); repeat split.
Qed.

Lemma verified_account_change_replaces_the_session_witness :
  ConnectWallet.account
    (run connected_as_alice
       (trace (handleAccountsChanged header (wallet bob bob) false [bob]))) = bob /\
  shown (afterWallet alice_editing_5
           (trace (handleAccountsChanged header (wallet bob bob) false [bob])))
  = Browsing.
Proof.
  destruct (verified_account_change_replaces_the_session header
              (wallet bob bob) bob [] connected_as_alice alice_editing_5
              eq_refl)
    as (Hc & _ & _ & Hv).
  - exists ("0xsigned:" ++ challenge bob 1700000000000)%string, bob.
    repeat split.
  - split; [exact Hc | exact Hv].
Defined.

End AppSessionFacts.

(** ** NoteEditor: loading *)

Module LoaderFacts.
Import NoteEditor NoteLoader Fixtures.Editor MoreFixtures.Loaders.

(** X9: after the load effect the mode of the form agrees with the
    [noteId] prop (new note exactly when there is no id), the success
    message is cleared, the saving flag is untouched, and the loading flag
    is off after every load of an existing note, failed or not. *)
Theorem load_sets_the_mode (props : Props) (b : NoteLoader.Backend)
    (st : State) :
  let st' := NoteLoader.run st (trace (loadNote props b)) in
  isNewNote st' = (match noteId props with None => true | Some _ => false end) /\
  loading st' = (match noteId props with None => loading st | Some _ => false end) /\
  success st' = "" /\
  saving st' = saving st.
Proof.
  intros st'. subst st'. unfold loadNote.
  destruct (noteId props) as [id|]; [|repeat split].
  destruct (unauthenticated props); [repeat split|].
  destruct (NoteLoader.getSigner b) as [[]|e]; [|repeat split].
  destruct (getNote b id) as [[t c]|e]; repeat split.
Qed.

(** X10: a load of an existing note shows exactly what the contract
    returned and no error; a load that fails (connection parameters
    missing, no signer, or [getNote] rejecting) leaves title and content
    empty, never the text of the note shown before, and reports
    ["Failed to load note. "] followed by the message; with parameters
    missing nothing is requested. *)
Theorem load_shows_the_note_or_an_empty_form (props : Props)
    (b : NoteLoader.Backend) (st : State) (id : Z) :
  noteId props = Some id ->
  let tr := trace (loadNote props b) in
  let st' := NoteLoader.run st tr in
  let failed msg :=
    title st' = "" /\ content st' = "" /\
    NoteEditor.error st' = ("Failed to load note. " ++ msg)%string in
  (unauthenticated props = true ->
   failed "Missing required connection parameters" /\
   filter NoteLoader.is_request tr = []) /\
  (unauthenticated props = false ->
   (forall e, NoteLoader.getSigner b = Rejected e -> failed (or_empty (message e))) /\
   (forall e, NoteLoader.getSigner b = Resolved tt -> getNote b id = Rejected e ->
              failed (or_empty (message e))) /\
   (forall t c, NoteLoader.getSigner b = Resolved tt ->
                getNote b id = Resolved (t, c) ->
                title st' = t /\ content st' = c /\ NoteEditor.error st' = "")).
Proof.
  intros Hid tr st' failed. subst tr st' failed. unfold loadNote.
  rewrite Hid. split.
  - intros ->. repeat split.
  - intros ->. split; [|split].
    + intros e ->. repeat split.
    + intros e -> ->. repeat split.
    + intros t c -> ->. repeat split.
Qed.

Lemma load_shows_the_note_or_an_empty_form_witness :
  title (NoteLoader.run (draft "old title" "old text" false)
           (trace (loadNote (connected (Some 7%Z)) holds_note_5))) = "" /\
  title (NoteLoader.run (draft "old title" "old text" false)
           (trace (loadNote (connected (Some 5%Z)) holds_note_5))) = "Groceries".
Proof.
  split.
  - destruct (load_shows_the_note_or_an_empty_form (connected (Some 7%Z))
                holds_note_5 (draft "old title" "old text" false) 7 eq_refl)
      as (_ & H).
    destruct (H eq_refl) as (_ & Hrej & _).
    apply (Hrej not_found); reflexivity.
  - destruct (load_shows_the_note_or_an_empty_form (connected (Some 5%Z))
                holds_note_5 (draft "old title" "old text" false) 5 eq_refl)
      as (_ & H).
    destruct (H eq_refl) as (_ & _ & Hok).
    apply (Hok "Groceries" "milk, eggs"); reflexivity.
Defined.

End LoaderFacts.

(** ** NoteEditor: what a submission sends and reports *)

Module SubmitFacts.
Import NoteEditor NoteLoader Fixtures.Editor MoreFixtures.Loaders EditorFacts.

Lemma dispatches_app (t1 t2 : list NoteEditor.Event) :
  filter is_dispatch (t1 ++ t2) = filter is_dispatch t1 ++ filter is_dispatch t2.
Proof. apply filter_app. Qed.

Lemma savedNoteIdOf_dispatches_nothing (props : Props) (st : State) (tx : Tx) :
  filter is_dispatch (trace (savedNoteIdOf props st tx)) = [].
Proof.
  destruct (savedNoteIdOf_waits props st tx) as [-> | ->]; reflexivity.
Qed.

(** The inner [try] sends its transaction first and nothing like it
    afterwards. *)
Lemma dispatchAndConfirm_dispatches (props : Props) (b : NoteEditor.Backend)
    (st : State) :
  filter is_dispatch (trace (dispatchAndConfirm props b st)) =
  [dispatchOf props st].
Proof.
  unfold dispatchAndConfirm, dispatchOf.
  destruct (isNewNote st) eqn:Hnew.
  - handler_simpl.
    destruct (createNote b (title st) (content st)) as [tx|e]; [|reflexivity].
    handler_simpl.
    destruct (wait_first tx) as [r|e]; [|reflexivity].
    handler_simpl.
    destruct (savedNoteIdOf_total props st tx) as [[id Hid] _].
    rewrite Hid. handler_simpl.
    rewrite !dispatches_app, savedNoteIdOf_dispatches_nothing. reflexivity.
  - handler_simpl.
    destruct (updateNote b (noteId props) (title st) (content st)) as [tx|e];
      [|reflexivity].
    handler_simpl.
    destruct (wait_first tx) as [r|e]; [|reflexivity].
    handler_simpl.
    destruct (savedNoteIdOf_total props st tx) as [[id Hid] _].
    rewrite Hid. handler_simpl.
    rewrite !dispatches_app, savedNoteIdOf_dispatches_nothing. reflexivity.
Qed.

Lemma save_dispatches (props : Props) (b : NoteEditor.Backend) (st : State) :
  filter is_dispatch (trace (save props b st)) =
  match NoteEditor.getSigner b with
  | Resolved signer =>
      if isAddress b (contractAddress props) && _isSigner signer
      then [dispatchOf props st] else []
  | Rejected _ => []
  end.
Proof.
  unfold save. handler_simpl.
  destruct (NoteEditor.getSigner b) as [signer|e]; [|reflexivity].
  destruct (isAddress b (contractAddress props)); cbn [negb andb];
    [|reflexivity].
  destruct (_isSigner signer); cbn [negb]; [|reflexivity].
  handler_simpl.
  destruct (result (dispatchAndConfirm props b st)); cbn;
    rewrite ?dispatches_app, dispatchAndConfirm_dispatches; reflexivity.
Qed.

Lemma submit_dispatches (props : Props) (b : NoteEditor.Backend) (st : State) :
  filter is_dispatch (trace (handleSubmit props b st)) =
  if ready props b st then [dispatchOf props st] else [].
Proof.
  unfold ready.
  destruct (readOnly props) eqn:Hro;
    [unfold handleSubmit; rewrite Hro; reflexivity|].
  destruct (all_space (title st)) eqn:Hink;
    [unfold handleSubmit; rewrite Hro, trim_truthy, Hink; reflexivity|].
  destruct (unauthenticated props) eqn:Hauth;
    [unfold handleSubmit; rewrite Hro, trim_truthy, Hink, Hauth; reflexivity|].
  rewrite (handleSubmit_checked _ _ _ Hro Hink Hauth).
  rewrite !dispatches_app, save_dispatches. cbn [negb andb].
  destruct (NoteEditor.getSigner b) as [signer|e];
    [destruct (isAddress b (contractAddress props) && _isSigner signer)|];
    destruct (result (save props b st)); reflexivity.
Qed.


(** X11: a submission hands at most one transaction to the contract, and
    exactly one when every check before the dispatch passes: a creation
    for a new note, an update of the [noteId] prop otherwise, carrying the
    title and content of the form, the gas limit 500000 and the account as
    sender.  Once the title and session checks have passed, the saving flag
    is off again at the end, however the save went. *)
Theorem submission_sends_one_transaction (props : Props)
    (b : NoteEditor.Backend) (st : State) :
  let tr := trace (handleSubmit props b st) in
  filter is_dispatch tr =
    (if ready props b st then [dispatchOf props st] else []) /\
  (readOnly props = false -> all_space (title st) = false ->
   unauthenticated props = false ->
   saving (NoteEditor.run st tr) = false).
Proof.
  intros tr. subst tr. split; [apply submit_dispatches|].
  intros Hro Hink Hauth.
  rewrite (handleSubmit_checked _ _ _ Hro Hink Hauth).
  rewrite !editor_run_app. reflexivity.
Qed.

Lemma loaded_mode (props : Props) (lb : NoteLoader.Backend) (st : State) :
  isNewNote (NoteLoader.run st (trace (loadNote props lb))) =
  match noteId props with None => true | Some _ => false end.
Proof.
  unfold loadNote.
  destruct (noteId props) as [id|]; [|reflexivity].
  destruct (unauthenticated props); [reflexivity|].
  destruct (NoteLoader.getSigner lb) as [[]|e]; [|reflexivity].
  destruct (getNote lb id) as [[t c]|e]; reflexivity.
Qed.

(** X12: an editor mounted for a note only ever updates that note, and
    an editor mounted without a note only ever creates: after the load
    effect and the typing of a title and a content, whatever a submission
    dispatches is the update of the [noteId] prop, or the creation, with
    the typed texts. *)
Theorem mounted_editor_dispatches_for_its_note (props : Props)
    (lb : NoteLoader.Backend) (b : NoteEditor.Backend) (st0 : State)
    (t c : string) :
  let loaded := NoteLoader.run st0 (trace (loadNote props lb)) in
  let st := onChangeContent props c (onChangeTitle props t loaded) in
  forall ev,
    In ev (filter is_dispatch (trace (handleSubmit props b st))) ->
    ev = match noteId props with
         | Some id => UpdateNote (Some id) t c 500000 (NoteEditor.account props)
         | None => CreateNote t c 500000 (NoteEditor.account props)
         end.
Proof.
  intros loaded st ev. rewrite submit_dispatches.
  destruct (ready props b st) eqn:Hready; [|intros []].
  intros [<-|[]].
  assert (Hro : readOnly props = false).
  { unfold ready in Hready. destruct (readOnly props); [discriminate|reflexivity]. }
  assert (Hmode : isNewNote st = match noteId props with
                                 | None => true | Some _ => false end).
  { subst st loaded. unfold onChangeContent, onChangeTitle. rewrite Hro.
    cbn. apply loaded_mode. }
  unfold dispatchOf. rewrite Hmode.
  subst st. unfold onChangeContent, onChangeTitle. rewrite Hro. cbn.
  destruct (noteId props); reflexivity.
Qed.

Lemma mounted_editor_dispatches_for_its_note_witness :
  In (UpdateNote (Some 5%Z) "Groceries!" "milk" 500000
        "0x00000000000000000000000000000000000000aa")
     (filter is_dispatch
        (trace (handleSubmit (connected (Some 5%Z)) (backend_ok no_events)
                  (onChangeContent (connected (Some 5%Z)) "milk"
                     (onChangeTitle (connected (Some 5%Z)) "Groceries!"
                        (NoteLoader.run (draft "" "" true)
                           (trace (loadNote (connected (Some 5%Z))
                                     holds_note_5)))))))) /\
  UpdateNote (Some 5%Z) "Groceries!" "milk" 500000
    "0x00000000000000000000000000000000000000aa" =
  UpdateNote (Some 5%Z) "Groceries!" "milk" 500000
    (NoteEditor.account (connected (Some 5%Z))).
Proof.
  split; [left; reflexivity|].
  apply (mounted_editor_dispatches_for_its_note (connected (Some 5%Z))
           holds_note_5 (backend_ok no_events) (draft "" "" true)
           "Groceries!" "milk").
  left. reflexivity.
Defined.

(** X13: a failure before the dispatch is reported and nothing is sent to
    the contract.  An invalid contract address or an invalid signer stops
    the save after the signer request and is reported with the thrown
    message as it is; a provider that gives no signer is reported by its
    error. *)
Theorem failures_before_dispatch_send_nothing (props : Props)
    (b : NoteEditor.Backend) (st : State) :
  readOnly props = false ->
  all_space (title st) = false ->
  unauthenticated props = false ->
  let tr := trace (handleSubmit props b st) in
  let reported := NoteEditor.error (NoteEditor.run st tr) in
  (forall e, NoteEditor.getSigner b = Rejected e ->
     filter NoteEditor.is_request tr = [NoteEditor.GetSigner] /\
     reported = errorMessage e) /\
  (forall signer, NoteEditor.getSigner b = Resolved signer ->
     isAddress b (contractAddress props) = false ->
     filter NoteEditor.is_request tr = [NoteEditor.GetSigner] /\
     reported = report "Contract address is invalid. Please check your configuration.") /\
  (forall signer, NoteEditor.getSigner b = Resolved signer ->
     isAddress b (contractAddress props) = true ->
     _isSigner signer = false ->
     filter NoteEditor.is_request tr = [NoteEditor.GetSigner] /\
     reported = report "No valid signer available. Please reconnect your wallet.").
Proof.
  intros Hro Hink Hauth tr reported. subst tr reported.
  rewrite (handleSubmit_checked _ _ _ Hro Hink Hauth).
  unfold save. split; [|split].
  - intros e ->. split; reflexivity.
  - intros signer -> ->. split; reflexivity.
  - intros [sg] -> -> Hsg. cbn in Hsg. subst sg. split; reflexivity.
Qed.

Lemma failures_before_dispatch_send_nothing_witness :
  NoteEditor.error
    (NoteEditor.run (draft "T" "B" true)
       (trace (handleSubmit (connected None) backend_bad_address
                 (draft "T" "B" true))))
  = report "Contract address is invalid. Please check your configuration.".
Proof.
  destruct (failures_before_dispatch_send_nothing (connected None)
              backend_bad_address (draft "T" "B" true)
              eq_refl eq_refl eq_refl) as (_ & H & _).
  apply (H {| _isSigner := true |}); reflexivity.
Defined.


(** X14: once a creation is confirmed the save is a success whatever
    the id recovery meets: a second [tx.wait()] that rejects, a receipt
    without events, an id that cannot be read.  The success message is set,
    no error is, and [onSaved] is scheduled exactly once, with the id the
    recovery gave or with [null]. *)
Theorem confirmed_create_always_succeeds (props : Props)
    (b : NoteEditor.Backend) (st : State) (signer : Signer) (tx : Tx)
    (r : TxReceipt) :
  readOnly props = false ->
  all_space (title st) = false ->
  unauthenticated props = false ->
  onSaved props = true ->
  isNewNote st = true ->
  NoteEditor.getSigner b = Resolved signer ->
  _isSigner signer = true ->
  isAddress b (contractAddress props) = true ->
  createNote b (title st) (content st) = Resolved tx ->
  wait_first tx = Resolved r ->
  let tr := trace (handleSubmit props b st) in
  exists id,
    result (savedNoteIdOf props st tx) = Resolved id /\
    scheduled tr = [OnSaved id] /\
    filter is_failure_report tr = [] /\
    NoteEditor.error (NoteEditor.run st tr) = "" /\
    success (NoteEditor.run st tr) = "Note created successfully!" /\
    (forall e, wait_second tx = Rejected e -> id = None).
Proof.
  intros Hro Hink Hauth Hcb Hnew Hg Hs Ha Hc Hw tr.
  destruct (savedNoteIdOf_total props st tx) as [[id Hid] _].
  exists id. split; [exact Hid|].
  destruct (confirmed_create_is_a_success props b st signer tx r id
              Hro Hink Hauth Hcb Hnew Hg Hs Ha Hc Hw Hid)
    as (H1 & H2 & H3 & H4).
  repeat split; try assumption.
  intros e He. unfold savedNoteIdOf in Hid. rewrite Hnew, He in Hid.
  destruct (truthy (hash tx)); cbn in Hid; congruence.
Qed.

Lemma confirmed_create_always_succeeds_witness :
  exists id,
    result (savedNoteIdOf (connected None) (draft "T" "B" true)
              confirmed_then_lost) = Resolved id /\
    scheduled (trace (handleSubmit (connected None)
                        (backend_with confirmed_then_lost)
                        (draft "T" "B" true))) = [OnSaved id] /\
    id = None.
Proof.
  destruct (confirmed_create_always_succeeds (connected None)
              (backend_with confirmed_then_lost) (draft "T" "B" true)
              {| _isSigner := true |} confirmed_then_lost no_events
              eq_refl eq_refl eq_refl eq_refl eq_refl eq_refl eq_refl
              eq_refl eq_refl eq_refl)
    as (id & Hid & Hs & _ & _ & _ & Hnone).
  exists id. split; [exact Hid|]. split; [exact Hs|].
  apply (Hnone not_found). reflexivity.
Defined.

(** X15: the id handed to [onSaved].  For an update it is the [noteId]
    prop and the receipt is not read.  For a creation it is a number [v]
    exactly when the transaction has a hash, the second [tx.wait()]
    resolves, and the first [NoteCreated] event of the receipt carries
    [args.noteId] as a [BigNumber] of absolute value at most
    [Number.MAX_SAFE_INTEGER]; in every other case it is [null], and
    the recovery never throws. *)
Theorem recovered_id_characterised (props : Props) (st : State) (tx : Tx) :
  let saved := result (savedNoteIdOf props st tx) in
  (isNewNote st = false ->
   saved = Resolved (noteId props) /\ trace (savedNoteIdOf props st tx) = []) /\
  (isNewNote st = true ->
   (exists id, saved = Resolved id) /\
   forall v,
     saved = Resolved (Some v) <->
     (truthy (hash tx) = true /\
      exists r e es ev o,
        wait_second tx = Resolved r /\
        events r = Some (e :: es) /\
        find isNoteCreated (e :: es) = Some ev /\
        args ev = Some o /\
        lookup "noteId" o = Some (ArgBigNumber v) /\
        (Z.abs v <= MAX_SAFE_INTEGER)%Z)).
Proof.
  intros saved. subst saved. split.
  - intros Hnew. unfold savedNoteIdOf. rewrite Hnew. split; reflexivity.
  - intros Hnew. split; [apply savedNoteIdOf_total|].
    intros v. unfold savedNoteIdOf. rewrite Hnew. cbn [andb].
    destruct (truthy (hash tx)).
    2:{ cbn -[find lookup]. split; [discriminate | intros [[=] _]]. }
    handler_simpl.
    destruct (wait_second tx) as [r|e0].
    2:{ cbn -[find lookup]. split; [discriminate|].
        intros (_ & r & e & es & ev & o & [=] & _). }
    handler_simpl. unfold extractNoteId.
    destruct (events r) as [[|e es]|] eqn:Hev.
    1,3: cbn -[find lookup]; split; [discriminate|];
         intros (_ & r' & e' & es' & ev & o & [= <-] & Hev' & _); congruence.
    destruct (find isNoteCreated (e :: es)) as [ev|] eqn:Hfind.
    2:{ cbn -[find lookup]; split; [discriminate|].
        intros (_ & r' & e' & es' & ev & o & [= <-] & Hev' & Hf & _).
        rewrite Hev in Hev'. injection Hev' as <- <-. congruence. }
    destruct (args ev) as [o|] eqn:Hargs.
    2:{ cbn -[find lookup]; split; [discriminate|].
        intros (_ & r' & e' & es' & ev' & o & [= <-] & Hev' & Hf & Ha & _).
        rewrite Hev in Hev'. injection Hev' as <- <-.
        rewrite Hfind in Hf. injection Hf as <-. congruence. }
    destruct (lookup "noteId" o) as [a|] eqn:Hl.
    2:{ cbn -[find lookup]; split; [discriminate|].
        intros (_ & r' & e' & es' & ev' & o' & [= <-] & Hev' & Hf & Ha & Hl' & _).
        rewrite Hev in Hev'. injection Hev' as <- <-.
        rewrite Hfind in Hf. injection Hf as <-.
        rewrite Hargs in Ha. injection Ha as <-. congruence. }
    assert (Hconv : forall v',
              (exists r' e' es' ev' o',
                 Resolved r = Resolved r' /\ events r' = Some (e' :: es') /\
                 find isNoteCreated (e' :: es') = Some ev' /\
                 args ev' = Some o' /\
                 lookup "noteId" o' = Some (ArgBigNumber v') /\
                 (Z.abs v' <= MAX_SAFE_INTEGER)%Z) ->
              a = ArgBigNumber v' /\ (Z.abs v' <= MAX_SAFE_INTEGER)%Z).
    { intros v' (r' & e' & es' & ev' & o' & [= <-] & Hev' & Hf & Ha & Hl' & Hb).
      rewrite Hev in Hev'. injection Hev' as <- <-.
      rewrite Hfind in Hf. injection Hf as <-.
      rewrite Hargs in Ha. injection Ha as <-.
      rewrite Hl in Hl'. injection Hl' as ->. auto. }
    destruct a as [n|str]; cbn -[find lookup].
    + destruct (Z.abs n <=? MAX_SAFE_INTEGER)%Z eqn:Hb; cbn -[find lookup].
      * split.
        -- intros [= <-]. split; [reflexivity|].
           exists r, e, es, ev, o. apply Z.leb_le in Hb. auto 10.
        -- intros [_ H]. destruct (Hconv v H) as [[= ->] _]. reflexivity.
      * split; [discriminate|].
        intros [_ H]. destruct (Hconv v H) as [[= ->] Hle].
        apply Z.leb_gt in Hb. lia.
    + destruct (truthy str); cbn -[find lookup]; (split; [discriminate|]);
        intros [_ H]; destruct (Hconv v H) as [[=] _].
Qed.


(** An args object whose keys are those of the repository's ABI has no
    property [noteId]. *)
Lemma abi_keys_lack_noteId (o : list (string * Arg)) :
  map fst o = Abi.NoteCreated_inputs -> lookup "noteId" o = None.
Proof.
  unfold Abi.NoteCreated_inputs.
  destruct o as [|[k1 v1] [|[k2 v2] [|[k3 v3] [|]]]]; cbn; try discriminate.
  intros [= -> -> ->]. reflexivity.
Qed.

(** X16: with the event as the repository's ABI declares it, whose id
    argument is named [note_id], the extraction finds no [args.noteId] in
    any receipt: the recovered id is always [null], so a confirmed
    creation always calls [onSaved(null)]. *)
Theorem abi_decoded_receipts_recover_no_id (props : Props) (st : State)
    (tx : Tx) :
  isNewNote st = true ->
  (forall r ev o,
     wait_second tx = Resolved r ->
     (exists l, events r = Some l /\ In ev l) ->
     isNoteCreated ev = true ->
     args ev = Some o ->
     map fst o = Abi.NoteCreated_inputs) ->
  result (savedNoteIdOf props st tx) = Resolved None.
Proof.
  intros Hnew Habi. unfold savedNoteIdOf. rewrite Hnew. cbn [andb].
  destruct (truthy (hash tx)); [|reflexivity].
  handler_simpl.
  destruct (wait_second tx) as [r|e0] eqn:Hw; [|reflexivity].
  handler_simpl. unfold extractNoteId.
  destruct (events r) as [[|e es]|] eqn:Hev; try reflexivity.
  destruct (find isNoteCreated (e :: es)) as [ev|] eqn:Hfind;
    [|reflexivity].
  destruct (args ev) as [o|] eqn:Hargs; [|reflexivity].
  apply find_some in Hfind. destruct Hfind as [Hin Hnc].
  rewrite (abi_keys_lack_noteId o); [reflexivity|].
  apply (Habi r ev o eq_refl); eauto.
Qed.

Lemma abi_decoded_receipts_recover_no_id_witness :
  result (savedNoteIdOf (connected None) (draft "T" "B" true)
            created_7_by_abi) = Resolved None.
Proof.
  apply abi_decoded_receipts_recover_no_id; [reflexivity|].
  intros r ev o [= <-] (l & [= <-] & [<-|[]]) _ [= <-]. reflexivity.
Defined.

End SubmitFacts.

(** ** NotesList: failed and successful fetches *)

Module FetchFacts.
Import NotesList ListEvents Fixtures.List ListFacts.

(** X17: a fetch that cannot succeed never leaves stale notes.  With the
    provider, the account or the contract address missing it sends no
    request, empties the list and reports that the wallet is not
    connected; when the signer or [getNotesList] fails it empties the list
    and asks to refresh.  In both cases the loading flag ends off. *)
Theorem failed_fetch_empties_the_list (props : Props) (b : Backend)
    (st : State) :
  let tr := trace (fetchNotes props b) in
  let st' := run st tr in
  (disconnected props = true ->
   filter is_request tr = [] /\ notes st' = [] /\ loading st' = false /\
   error st' = "Wallet not connected or contract not available.") /\
  (disconnected props = false ->
   (forall e, getSigner b = Rejected e \/
              (getSigner b = Resolved tt /\ getNotesList b = Rejected e) ->
    notes st' = [] /\ loading st' = false /\
    error st' = "Failed to load notes. Please try refreshing.")).
Proof.
  intros tr st'. subst tr st'. unfold fetchNotes, disconnected. split.
  - intros ->. repeat split.
  - intros ->. intros e [->|[-> ->]]; repeat split.
Qed.

Lemma format_ids (ids : list Z) (titles : list string) (tss : list Z)
    (k : nat) :
  map id (format k ids titles tss) = ids.
Proof.
  revert k. induction ids as [|i ids IH]; intros k; [reflexivity|].
  cbn. rewrite IH. reflexivity.
Qed.

Lemma format_entries (ids : list Z) (titles : list string) (tss : list Z)
    (k : nat) (n : Note) :
  In n (format k ids titles tss) ->
  exists i, nth_error ids i = Some (id n) /\
            title n = title_or_default (nth_error titles (k + i)) /\
            timestamp n = nth_error tss (k + i).
Proof.
  revert k. induction ids as [|x ids IH]; intros k; [intros []|].
  cbn. intros [<-|Hin].
  - exists 0. rewrite Nat.add_0_r. repeat split.
  - destruct (IH (S k) Hin) as (i & Hi & Ht & Hs).
    exists (S i). rewrite Nat.add_succ_r. auto.
Qed.

Lemma title_or_default_truthy (t : option string) :
  title_or_default t <> "".
Proof.
  unfold title_or_default. destruct t as [[|c s]|]; discriminate.
Qed.

(** X18: a successful fetch lists every returned id exactly once, never
    shows an empty title (a missing or empty one reads "Untitled Note"),
    and keeps each id with the title and the timestamp of its own index,
    whatever order the sort gives; no error remains and the loading flag
    ends off. *)
Theorem fetched_notes_are_complete_and_aligned (props : Props) (b : Backend)
    (st : State) (ids : list Z) (titles : list string) (timestamps : list Z) :
  disconnected props = false ->
  getSigner b = Resolved tt ->
  getNotesList b = Resolved (ids, titles, timestamps) ->
  let st' := run st (trace (fetchNotes props b)) in
  Permutation (map id (notes st')) ids /\
  List.length (notes st') = List.length ids /\
  (forall n, In n (notes st') ->
     title n <> "" /\
     exists i, nth_error ids i = Some (id n) /\
               title n = title_or_default (nth_error titles i) /\
               timestamp n = nth_error timestamps i) /\
  error st' = "" /\ loading st' = false.
Proof.
  intros Hd Hs Hl st'. subst st'. unfold fetchNotes.
  unfold disconnected in Hd. rewrite Hd, Hs, Hl. cbn.
  pose proof (sort_perm (format 0 ids titles timestamps)) as Hp.
  split; [|split; [|split; [|split; reflexivity]]].
  - rewrite <- (format_ids ids titles timestamps 0) at 2.
    apply Permutation_map, Hp.
  - rewrite (Permutation_length Hp), <- (length_map id), format_ids.
    reflexivity.
  - intros n Hin.
    apply (Permutation_in _ Hp) in Hin.
    destruct (format_entries _ _ _ _ _ Hin) as (i & Hi & Ht & Hts).
    split; [rewrite Ht; apply title_or_default_truthy | eauto].
Qed.

Lemma fetched_notes_are_complete_and_aligned_witness :
  map title (notes (run empty (trace (fetchNotes connected three_notes))))
  = ["Untitled Note"; "c"; "a"] /\
  Permutation
    (map id (notes (run empty (trace (fetchNotes connected three_notes)))))
    [1; 2; 3]%Z.
Proof.
  split; [reflexivity|].
  apply (fetched_notes_are_complete_and_aligned connected three_notes empty
           [1; 2; 3]%Z ["a"; ""; "c"]
           [1700000000; 1700000500; 1700000200]%Z); reflexivity.
Defined.

End FetchFacts.

(** ** ContractDiagnostics: runs that stop early, and the advice *)

Module AdviceFacts.
Import ContractDiagnostics Recommendations Fixtures.Diagnostics.

(** X19: a run without provider or account does nothing at all and the
    diagnostic state stays as it was.  A run that cannot build the
    contract object sends none of the three calls: the contract slot fails
    with the connection message (which replaces the address-format
    message, if any), the two other slots stay blank, and the run still
    completes. *)
Theorem diagnostics_without_a_contract (provider account : bool) (c : Chain)
    (prev : DiagnosticState) :
  let tr := trace (runDiagnostics provider account c) in
  (provider && account = false -> tr = [] /\ after prev tr = prev) /\
  (provider && account = true ->
   forall err, connect c = Rejected err ->
     ran Contract tr = false /\ ran Encryption tr = false /\
     ran NoteCreation tr = false /\
     after prev tr =
       {| running := false; completed := true;
          results :=
            {| contract :=
                 {| valid := false;
                    error := Some ("Failed to connect to contract: " ++
                                   message_or_unknown err)%string |};
               noteCreation := blank;
               encryption := blank |} |}).
Proof.
  intros tr. subst tr. unfold runDiagnostics. split.
  - destruct provider, account; try discriminate; intros _; split; reflexivity.
  - destruct provider, account; try discriminate. intros _ err ->.
    destruct (isAddress c); repeat split.
Qed.

(** X20: the advice is never empty and never the generic fallback text;
    with the contract check failed it is the deployment advice alone,
    whatever the two other checks gave; with the contract check passed it
    names exactly the checks that failed, and it is the all-good message
    exactly when all three passed. *)
Theorem advice_follows_the_checks (r : Results) :
  let l := getRecommendations r in
  l <> [] /\
  ~ In fallbackAdvice l /\
  (valid (contract r) = false -> l = [deployAdvice]) /\
  (valid (contract r) = true ->
   l = (if valid (encryption r) then [] else [encryptionAdvice]) ++
       (if valid (noteCreation r) then [] else [noteCreationAdvice]) ++
       (if valid (encryption r) && valid (noteCreation r)
        then [allGood] else [])).
Proof.
  intros l. subst l. unfold getRecommendations, push_if.
  destruct (valid (contract r)), (valid (encryption r)),
    (valid (noteCreation r)); cbn [negb andb app List.length Nat.eqb];
    (split; [discriminate|]);
    (split; [cbn [In]; intuition discriminate|]);
    (split; [intros H; try discriminate H; reflexivity
            | intros H; try discriminate H; reflexivity]).
Qed.

(** X21: the advice after a run, from what the chain answered.  When the
    contract object cannot be built or the view call fails, the advice is
    the deployment advice alone, even if the encryption and count calls
    answered; otherwise it names the calls that failed, or says that all
    is well. *)
Theorem advice_after_a_run (c : Chain) (prev : DiagnosticState) :
  let r := results (after prev (trace (runDiagnostics true true c))) in
  let ok {A} (o : Outcome A) :=
    match o with Resolved _ => true | Rejected _ => false end in
  getRecommendations r =
  if ok (connect c) && ok (getEncryptionContractAddress c) then
    (if ok (encryptNote c) then [] else [encryptionAdvice]) ++
    (if ok (getNoteCount c) then [] else [noteCreationAdvice]) ++
    (if ok (encryptNote c) && ok (getNoteCount c) then [allGood] else [])
  else [deployAdvice].
Proof.
  intros r ok. subst r ok. unfold runDiagnostics, probes.
  destruct (isAddress c), (connect c) as [[]|e0];
    try reflexivity;
    destruct (getEncryptionContractAddress c), (encryptNote c),
      (getNoteCount c); reflexivity.
Qed.

End AdviceFacts.
